(** * MsGine SDK: validation, transport and client facade

    A shallow embedding of [src/types.ts], [src/http-client.ts] and
    [src/client.ts] of the MsGine SDK, and the properties of its
    specification established (or refuted) on that embedding.

    Conventions of the embedding.
    - A JavaScript string is a [string]; every character stands for one
      UTF-16 code unit in the range U+0000..U+00FF, so [String.length] is
      the [.length] that zod compares.
    - A JavaScript [number] holding a count or a status code is a [Z]; a
      number of a JSON document or of a query string is a safe integer
      ([SafeInteger]); the delays and the multiplier of the retry policy
      are doubles ([float], IEEE 754 binary64 with its rounding, infinities
      and NaN).  [Math.pow], whose result ECMAScript leaves to the
      implementation, is a function of the platform ([Platform]).
    - An [async] function is a tree of suspension points ([promise]): it
      either settles, or waits for the HTTP executor, or waits for a timer.
      The HTTP executor ([config.fetch], else [globalThis.fetch]) and the
      clock belong to the environment that runs the tree. *)

From Stdlib Require Import ZArith String Ascii List Lia Floats.
From stdpp Require Import base option list strings gmap fin_maps pretty.

#[local] Set Warnings "-register-all".

Open Scope string_scope.
Open Scope list_scope.
Open Scope Z_scope.

(** ** JavaScript values that cross the library boundary *)

(** A number that is a safe integer ([Number.isSafeInteger]): an integer
    of absolute value at most 2^53 - 1.  Every such integer is a double,
    and [String] prints it in plain decimal digits. *)
Record SafeInteger : Type := {
  integer : Z;
  is_safe : (Z.abs integer <=? 9007199254740991) = true
}.

(** A parsed JSON document ([await response.json()], typed [any] by the
    source).  Numbers are restricted to safe integers.  An object is the
    list of its properties, with distinct keys. *)
Inductive JsonValue : Type :=
| JNull
| JBool (b : bool)
| JNum (n : SafeInteger)
| JStr (s : string)
| JArr (items : list JsonValue)
| JObj (props : list (string * JsonValue)).

(** [v.key] for a value that is neither [null] nor [undefined]: objects
    answer with the property, every other value has no such own property
    ([None] is [undefined]). *)
Definition get_prop (v : JsonValue) (key : string) : option JsonValue :=
  match v with
  | JObj props => snd <$> List.find (fun kv => String.eqb (fst kv) key) props
  | _ => None
  end.

(** [v?.key] where [v] may be [undefined] ([None]) or [null]. *)
Definition opt_chain (v : option JsonValue) (key : string) : option JsonValue :=
  match v with
  | None | Some JNull => None
  | Some o => get_prop o key
  end.

(** [a ?? b]: [b] replaces [null] and [undefined] only. *)
Definition nullish {A} (a : option JsonValue) (k : JsonValue -> A) (b : A) : A :=
  match a with
  | None | Some JNull => b
  | Some v => k v
  end.

(** Truthiness, as tested by [options.body ? ... : undefined]. *)
Definition truthy (v : JsonValue) : bool :=
  match v with
  | JNull => false
  | JBool b => b
  | JNum n => negb (integer n =? 0)
  | JStr s => negb (String.eqb s EmptyString)
  | JArr _ | JObj _ => true
  end.

Definition join_comma (parts : list string) : string :=
  match parts with
  | [] => EmptyString
  | p :: ps => fold_left (fun acc q => acc +:+ "," +:+ q) ps p
  end.

(** [String(v)], which the [Error] constructor applies to its message. *)
Fixpoint ToString (v : JsonValue) : string :=
  match v with
  | JNull => "null"
  | JBool true => "true"
  | JBool false => "false"
  | JNum n => pretty (integer n)
  | JStr s => s
  | JArr items =>
      join_comma (List.map (fun x => match x with
                                     | JNull => EmptyString
                                     | _ => ToString x
                                     end) items)
  | JObj _ => "[object Object]"
  end.

(** [haystack.includes(needle)] on strings. *)
Fixpoint includes (haystack needle : string) : bool :=
  String.prefix needle haystack ||
  match haystack with
  | EmptyString => false
  | String _ rest => includes rest needle
  end.

(** ** [src/types.ts] *)

Module Types.

Record RetryConfig : Type := {
  maxRetries : option Z;
  initialDelay : option float;
  maxDelay : option float;
  backoffMultiplier : option float;
  retryableStatusCodes : option (list Z)
}.

(** [config.fetch] is not a field: the executor is the environment of
    [run] below. *)
Record MsGineClientConfig : Type := {
  apiToken : string;
  baseUrl : option string;
  timeout : option Z;
  retry : option RetryConfig
}.

Record SendSmsPayload : Type := {
  to : string;
  message : string
}.

(** One issue of a [z.ZodError]. *)
Record ZodIssue : Type := {
  issue_path : list string;
  issue_message : string
}.

Definition ZodError : Type := list ZodIssue.

(** [z.string().min(n, msg)] and [.max(n, msg)]: each check adds its own
    issue, none stops the others. *)
Definition check_min (n : nat) (msg : string) (field : string) (s : string)
  : list ZodIssue :=
  if (String.length s <? n)%nat
  then [{| issue_path := [field]; issue_message := msg |}] else [].

Definition check_max (n : nat) (msg : string) (field : string) (s : string)
  : list ZodIssue :=
  if (n <? String.length s)%nat
  then [{| issue_path := [field]; issue_message := msg |}] else [].

(** [SendSmsSchema.safeParse(payload)]: [inr data] is
    [{success: true, data}], [inl error] is [{success: false, error}].  The
    object schema visits [to], then [message]. *)
Definition SendSmsSchema_safeParse (payload : SendSmsPayload)
  : ZodError + SendSmsPayload :=
  let issues :=
    check_min 1 "Phone number is required" "to" (to payload) ++
    (check_min 1 "Message is required" "message" (message payload) ++
     check_max 1600 "Message too long" "message" (message payload)) in
  match issues with
  | [] => inr {| to := to payload; message := message payload |}
  | _ :: _ => inl issues
  end.

Record MsGineError : Type := {
  error_message : string;
  statusCode : Z;
  code : option JsonValue;
  details : option JsonValue;
  requestId : option JsonValue
}.

(** Whatever a [throw] or a rejected promise carries. *)
Inductive Thrown : Type :=
| AnMsGineError (e : MsGineError)
| AnMsGineValidationError (msg : string) (errors : ZodError)
| AnError (name msg : string)
| NotAnError (v : JsonValue)
| Undefined.

(** [error instanceof Error]: both SDK classes extend [Error]. *)
Definition instanceof_Error (error : Thrown) : bool :=
  match error with
  | AnMsGineError _ | AnMsGineValidationError _ _ | AnError _ _ => true
  | NotAnError _ | Undefined => false
  end.

(** [error.name] of an [Error] instance. *)
Definition error_name (error : Thrown) : string :=
  match error with
  | AnMsGineError _ => "MsGineError"
  | AnMsGineValidationError _ _ => "MsGineValidationError"
  | AnError name _ => name
  | NotAnError _ | Undefined => EmptyString
  end.

(** [error.message] of an [Error] instance. *)
Definition message_of (error : Thrown) : string :=
  match error with
  | AnMsGineError e => error_message e
  | AnMsGineValidationError msg _ => msg
  | AnError _ msg => msg
  | NotAnError _ | Undefined => EmptyString
  end.

Inductive HttpMethod : Type := GET | POST | PUT | DELETE | PATCH.

Inductive QueryValue : Type :=
| QString (s : string)
| QNumber (n : SafeInteger)
| QBoolean (b : bool).

(** [String(value)] for a query parameter. *)
Definition String_of (value : QueryValue) : string :=
  match value with
  | QString s => s
  | QNumber n => pretty (integer n)
  | QBoolean true => "true"
  | QBoolean false => "false"
  end.

(** [queryParams] is the list [Object.entries] enumerates. *)
Record RequestOptions : Type := {
  method : HttpMethod;
  path : string;
  body : option JsonValue;
  headers : option (gmap string string);
  queryParams : option (list (string * QueryValue))
}.

End Types.
Import Types.

(** ** The platform's [URL] class

    [new URL(input, base)], [url.searchParams.append] and [url.toString()]
    after the WHATWG URL Standard, for [http] and [https] URLs.  [None] is
    the [TypeError] of the constructor; it is also the answer for inputs
    this embedding does not cover: credentials, hosts that are not plain
    lower-case domain names (IP addresses, [xn--] labels, other
    characters), schemes other than [http] and [https], and query strings
    whose percent-decoding leaves U+0000..U+00FF. *)
Module URL.

Record t : Type := {
  scheme : string;
  host : string;
  port : option Z;
  segments : list string;
  query : option string;
  fragment : option string
}.

Definition code (c : ascii) : nat := nat_of_ascii c.

Definition is_alpha (c : ascii) : bool :=
  ((65 <=? code c) && (code c <=? 90) || (97 <=? code c) && (code c <=? 122))%nat.
Definition is_digit (c : ascii) : bool :=
  ((48 <=? code c) && (code c <=? 57))%nat.
Definition is_slash (c : ascii) : bool :=
  Ascii.eqb c "/" || Ascii.eqb c "\".
Definition lower (c : ascii) : ascii :=
  if ((65 <=? code c) && (code c <=? 90))%nat
  then ascii_of_nat (code c + 32) else c.

Fixpoint lowercase (s : string) : string :=
  match s with
  | EmptyString => EmptyString
  | String c rest => String (lower c) (lowercase rest)
  end.

(** Leading and trailing C0 controls and spaces are stripped, tabs and
    newlines are removed everywhere. *)
Definition c0_or_space (c : ascii) : bool := (code c <=? 32)%nat.
Definition tab_or_newline (c : ascii) : bool :=
  ((code c =? 9) || (code c =? 10) || (code c =? 13))%nat.

Fixpoint strip_leading (s : string) : string :=
  match s with
  | String c rest => if c0_or_space c then strip_leading rest else s
  | EmptyString => EmptyString
  end.

Fixpoint strip_trailing (s : string) : string :=
  match s with
  | EmptyString => EmptyString
  | String c rest =>
      match strip_trailing rest with
      | EmptyString => if c0_or_space c then EmptyString else String c EmptyString
      | kept => String c kept
      end
  end.

Fixpoint remove_tab_newline (s : string) : string :=
  match s with
  | EmptyString => EmptyString
  | String c rest =>
      if tab_or_newline c then remove_tab_newline rest
      else String c (remove_tab_newline rest)
  end.

Definition preprocess (s : string) : string :=
  remove_tab_newline (strip_trailing (strip_leading s)).

(** *** Percent-encoding *)

Definition hex_digit (n : nat) : ascii :=
  if (n <? 10)%nat then ascii_of_nat (48 + n) else ascii_of_nat (55 + n).

Definition percent_byte (b : nat) : string :=
  String "%" (String (hex_digit (b / 16)) (String (hex_digit (b mod 16)) EmptyString)).

(** UTF-8 of a code point below U+0100, percent-encoded when the byte is
    in [set] (bytes above 0x7E are in every set). *)
Definition percent_encode (set : nat -> bool) (c : ascii) : string :=
  let n := code c in
  if (n <? 128)%nat then
    if set n then percent_byte n else String c EmptyString
  else percent_byte (192 + n / 64) +:+ percent_byte (128 + n mod 64).

Definition among (l : list nat) (n : nat) : bool := existsb (Nat.eqb n) l.

Definition c0_control_set (n : nat) : bool := ((n <=? 31) || (126 <? n))%nat.
Definition fragment_set (n : nat) : bool :=
  c0_control_set n || among [32; 34; 60; 62; 96]%nat n.
Definition query_set (n : nat) : bool :=
  c0_control_set n || among [32; 34; 35; 60; 62]%nat n.
Definition special_query_set (n : nat) : bool :=
  query_set n || (n =? 39)%nat.
Definition path_set (n : nat) : bool :=
  query_set n || among [63; 94; 96; 123; 125]%nat n.
(** application/x-www-form-urlencoded: everything but ASCII
    alphanumerics and [*-._]. *)
Definition urlencoded_set (n : nat) : bool :=
  negb (is_alpha (ascii_of_nat n) || is_digit (ascii_of_nat n)
        || among [42; 45; 46; 95]%nat n).

(** *** Path, query and fragment states *)

Definition single_dot (buffer : string) : bool :=
  let b := lowercase buffer in
  String.eqb b "." || String.eqb b "%2e".

Definition double_dot (buffer : string) : bool :=
  let b := lowercase buffer in
  String.eqb b ".." || String.eqb b ".%2e" || String.eqb b "%2e."
  || String.eqb b "%2e%2e".

Definition shorten (segs : list string) : list string := removelast segs.

(** The end of a path segment; [slash] tells whether a slash ended it. *)
Definition end_segment (buffer : string) (segs : list string) (slash : bool)
  : list string :=
  if double_dot buffer then
    if slash then shorten segs else shorten segs ++ [EmptyString]
  else if single_dot buffer then
    if slash then segs else segs ++ [EmptyString]
  else segs ++ [buffer].

Fixpoint fragment_state (input acc : string) : string :=
  match input with
  | EmptyString => acc
  | String c rest => fragment_state rest (acc +:+ percent_encode fragment_set c)
  end.

Fixpoint query_state (input acc : string) : string * option string :=
  match input with
  | EmptyString => (acc, None)
  | String c rest =>
      if Ascii.eqb c "#" then (acc, Some (fragment_state rest EmptyString))
      else query_state rest (acc +:+ percent_encode special_query_set c)
  end.

Fixpoint path_state (input buffer : string) (segs : list string)
  : list string * option string * option string :=
  match input with
  | EmptyString => (end_segment buffer segs false, None, None)
  | String c rest =>
      if is_slash c then path_state rest EmptyString (end_segment buffer segs true)
      else if Ascii.eqb c "?" then
        let '(q, f) := query_state rest EmptyString in
        (end_segment buffer segs false, Some q, f)
      else if Ascii.eqb c "#" then
        (end_segment buffer segs false, None, Some (fragment_state rest EmptyString))
      else path_state rest (buffer +:+ percent_encode path_set c) segs
  end.

(** Path start state of a special URL: one leading slash is consumed. *)
Definition path_start_state (input : string) : list string * option string * option string :=
  match input with
  | String c rest => if is_slash c then path_state rest EmptyString [] else path_state input EmptyString []
  | EmptyString => path_state EmptyString EmptyString []
  end.

(** *** Scheme, authority and host *)

Fixpoint scheme_state (input acc : string) : option (string * string) :=
  match input with
  | EmptyString => None
  | String c rest =>
      if is_alpha c || is_digit c || among [43; 45; 46]%nat (code c)
      then scheme_state rest (acc +:+ String (lower c) EmptyString)
      else if Ascii.eqb c ":" then Some (acc, rest) else None
  end.

(** The scheme of [input] and what follows its colon, if it has one. *)
Definition scheme_start_state (input : string) : option (string * string) :=
  match input with
  | String c _ => if is_alpha c then scheme_state input EmptyString else None
  | EmptyString => None
  end.

Definition default_port (scheme : string) : option Z :=
  if String.eqb scheme "http" then Some 80
  else if String.eqb scheme "https" then Some 443
  else None.

Fixpoint skip_slashes (input : string) : string :=
  match input with
  | String c rest => if is_slash c then skip_slashes rest else input
  | EmptyString => EmptyString
  end.

Fixpoint split_authority (input acc : string) : string * string :=
  match input with
  | EmptyString => (acc, EmptyString)
  | String c rest =>
      if is_slash c || Ascii.eqb c "?" || Ascii.eqb c "#" then (acc, input)
      else split_authority rest (acc +:+ String c EmptyString)
  end.

Fixpoint split_at (sep : ascii) (input acc : string) : string * option string :=
  match input with
  | EmptyString => (acc, None)
  | String c rest =>
      if Ascii.eqb c sep then (acc, Some rest)
      else split_at sep rest (acc +:+ String c EmptyString)
  end.

Fixpoint split_all (sep : ascii) (input acc : string) : list string :=
  match input with
  | EmptyString => [acc]
  | String c rest =>
      if Ascii.eqb c sep then acc :: split_all sep rest EmptyString
      else split_all sep rest (acc +:+ String c EmptyString)
  end.

Fixpoint all_chars (p : ascii -> bool) (s : string) : bool :=
  match s with
  | EmptyString => true
  | String c rest => p c && all_chars p rest
  end.

(** The hosts of this embedding: lower-case letters, digits, [-] and
    [.], the last label starting with a letter (so the host is no IPv4
    address) and no label starting with [xn--]; the host parser returns
    such a host unchanged. *)
Definition covered_host (h : string) : bool :=
  let labels := split_all "." h EmptyString in
  negb (String.eqb h EmptyString)
  && all_chars (fun c => is_alpha c && Ascii.eqb (lower c) c || is_digit c
                         || Ascii.eqb c "-" || Ascii.eqb c ".") h
  && match List.last labels EmptyString with
     | String c _ => is_alpha c
     | EmptyString => false
     end
  && forallb (fun l => negb (String.prefix "xn--" l)) labels.

Fixpoint digits_value (s : string) (acc : Z) : Z :=
  match s with
  | EmptyString => acc
  | String c rest => digits_value rest (10 * acc + Z.of_nat (code c - 48))
  end.

(** [None]: failure; [Some None]: no port or the scheme's default. *)
Definition parse_port (scheme digits : string) : option (option Z) :=
  if String.eqb digits EmptyString then Some None
  else if all_chars is_digit digits then
    let n := digits_value digits 0 in
    if 65535 <? n then None
    else if decide (default_port scheme = Some n) then Some None
    else Some (Some n)
  else None.

Definition authority_state (scheme input : string) : option t :=
  let '(auth, rest) := split_authority (skip_slashes input) EmptyString in
  let '(h, p) := split_at ":" auth EmptyString in
  let h := lowercase h in
  if covered_host h then
    match parse_port scheme (default EmptyString p) with
    | Some port =>
        let '(segs, q, f) := path_start_state rest in
        Some {| scheme := scheme; host := h; port := port;
                segments := segs; query := q; fragment := f |}
    | None => None
    end
  else None.

Definition covered_scheme (s : string) : bool :=
  String.eqb s "http" || String.eqb s "https".

(** The basic URL parser without a base URL. *)
Definition parse_absolute (input : string) : option t :=
  match scheme_start_state input with
  | Some (s, rest) => if covered_scheme s then authority_state s rest else None
  | None => None
  end.

(** *** Relative references *)

Definition with_path (base : t) (r : list string * option string * option string) : t :=
  let '(segs, q, f) := r in
  {| scheme := scheme base; host := host base; port := port base;
     segments := segs; query := q; fragment := f |}.

Definition relative_slash_state (rest : string) (base : t) : option t :=
  match rest with
  | String c _ =>
      if is_slash c then authority_state (scheme base) rest
      else Some (with_path base (path_state rest EmptyString []))
  | EmptyString => Some (with_path base (path_state rest EmptyString []))
  end.

Definition relative_state (input : string) (base : t) : option t :=
  match input with
  | EmptyString =>
      Some (with_path base (segments base, query base, None))
  | String c rest =>
      if is_slash c then relative_slash_state rest base
      else if Ascii.eqb c "?" then
        let '(q, f) := query_state rest EmptyString in
        Some (with_path base (segments base, Some q, f))
      else if Ascii.eqb c "#" then
        Some (with_path base (segments base, query base,
                              Some (fragment_state rest EmptyString)))
      else Some (with_path base (path_state input EmptyString (shorten (segments base))))
  end.

(** The basic URL parser with a base URL. *)
Definition parse (input : string) (base : t) : option t :=
  match scheme_start_state input with
  | Some (s, rest) =>
      if covered_scheme s then
        if String.eqb s (scheme base) && negb (String.prefix "//" rest)
        then relative_state rest base
        else authority_state s rest
      else None
  | None => relative_state input base
  end.

(** *** [URLSearchParams] *)

Definition hex_value (c : ascii) : option nat :=
  let n := code c in
  if is_digit c then Some (n - 48)%nat
  else if ((65 <=? n) && (n <=? 70))%nat then Some (n - 55)%nat
  else if ((97 <=? n) && (n <=? 102))%nat then Some (n - 87)%nat
  else None.

Fixpoint percent_decode (s : string) : list nat :=
  match s with
  | EmptyString => []
  | String c rest =>
      match rest with
      | String a (String b rest') =>
          match Ascii.eqb c "%", hex_value a, hex_value b with
          | true, Some x, Some y => (16 * x + y)%nat :: percent_decode rest'
          | _, _, _ => code c :: percent_decode rest
          end
      | _ => code c :: percent_decode rest
      end
  end.

(** UTF-8 decoding of byte sequences that stay below U+0100. *)
Fixpoint utf8_decode (bytes : list nat) : option string :=
  match bytes with
  | [] => Some EmptyString
  | b :: rest =>
      if (b <? 128)%nat then String (ascii_of_nat b) <$> utf8_decode rest
      else
        match rest with
        | b2 :: rest' =>
            if ((194 <=? b) && (b <=? 195) && (128 <=? b2) && (b2 <=? 191))%nat
            then String (ascii_of_nat ((b - 192) * 64 + (b2 - 128))) <$> utf8_decode rest'
            else None
        | [] => None
        end
  end.

Fixpoint plus_to_space (s : string) : string :=
  match s with
  | EmptyString => EmptyString
  | String c rest =>
      String (if Ascii.eqb c "+" then " "%char else c) (plus_to_space rest)
  end.

Definition decode_component (s : string) : option string :=
  utf8_decode (percent_decode (plus_to_space s)).

(** The application/x-www-form-urlencoded parser. *)
Definition parse_urlencoded (q : string) : option (list (string * string)) :=
  mapM (fun piece =>
          let '(n, v) := split_at "=" piece EmptyString in
          n' ← decode_component n;
          v' ← decode_component (default EmptyString v);
          Some (n', v'))
       (List.filter (fun piece => negb (String.eqb piece EmptyString))
                    (split_all "&" q EmptyString)).

Fixpoint encode_component (s : string) : string :=
  match s with
  | EmptyString => EmptyString
  | String c rest =>
      (if Ascii.eqb c " " then "+" else percent_encode urlencoded_set c)
      +:+ encode_component rest
  end.

Definition join_with (sep : string) (parts : list string) : string :=
  match parts with
  | [] => EmptyString
  | p :: ps => fold_left (fun acc q => acc +:+ sep +:+ q) ps p
  end.

(** The application/x-www-form-urlencoded serializer. *)
Definition serialize_urlencoded (pairs : list (string * string)) : string :=
  join_with "&" (List.map (fun nv => encode_component (fst nv) +:+ "="
                                     +:+ encode_component (snd nv)) pairs).

(** *** The [URL] object *)

Record obj : Type := {
  url : t;
  searchParams : list (string * string)
}.

(** [new URL(input, base)] *)
Definition new (input base : string) : option obj :=
  b ← parse_absolute (preprocess base);
  u ← parse (preprocess input) b;
  params ← parse_urlencoded (default EmptyString (query u));
  Some {| url := u; searchParams := params |}.

(** [o.searchParams.append(name, value)] *)
Definition searchParams_append (o : obj) (name value : string) : obj :=
  let params := searchParams o ++ [(name, value)] in
  let q := serialize_urlencoded params in
  {| url := {| scheme := scheme (url o); host := host (url o);
               port := port (url o); segments := segments (url o);
               query := if String.eqb q EmptyString then None else Some q;
               fragment := fragment (url o) |};
     searchParams := params |}.

(** The pathname: every segment after a slash. *)
Definition pathname (u : t) : string :=
  fold_left (fun acc seg => acc +:+ "/" +:+ seg) (segments u) EmptyString.

(** [o.toString()] *)
Definition toString (o : obj) : string :=
  let u := url o in
  scheme u +:+ "://" +:+ host u
  +:+ match port u with Some p => ":" +:+ pretty p | None => EmptyString end
  +:+ pathname u
  +:+ match query u with Some q => "?" +:+ q | None => EmptyString end
  +:+ match fragment u with Some f => "#" +:+ f | None => EmptyString end.
End URL.

(** ** Promises and the environment *)

(** A response-like object, as far as the transport reads it:
    [content_type] is [response.headers.get('content-type')] and [json] is
    what [await response.json()] does, resolve ([inr]) or reject ([inl]). *)
Record Response : Type := {
  ok : bool;
  status : Z;
  statusText : string;
  content_type : option string;
  json : Thrown + JsonValue
}.

(** What [fetchImpl(url, init)] is called with.  [call_body] is the value
    whose [JSON.stringify] is sent; [call_timeout] is the delay of the
    abort timer armed for the call. *)
Record FetchCall : Type := {
  call_url : string;
  call_method : HttpMethod;
  call_headers : gmap string string;
  call_body : option JsonValue;
  call_timeout : Z
}.

(** How a call to the executor ends.  An elapsed abort timer shows as a
    rejection with an [AbortError]. *)
Inductive FetchOutcome : Type :=
| Resolves (response : Response)
| Rejects (reason : Thrown).

(** An [async] computation: settled, or suspended on the executor or on
    [setTimeout].  [Pending] never settles. *)
Inductive promise (A : Type) : Type :=
| Fulfilled (a : A)
| Rejected (reason : Thrown)
| AwaitFetch (call : FetchCall) (k : FetchOutcome -> promise A)
| AwaitSleep (ms : float) (k : promise A)
| Pending.

Arguments Fulfilled {A} a.
Arguments Rejected {A} reason.
Arguments AwaitFetch {A} call k.
Arguments AwaitSleep {A} ms k.
Arguments Pending {A}.

(** [const a = await p; f(a)] *)
Fixpoint bind {A B} (p : promise A) (f : A -> promise B) : promise B :=
  match p with
  | Fulfilled a => f a
  | Rejected e => Rejected e
  | AwaitFetch call k => AwaitFetch call (fun o => bind (k o) f)
  | AwaitSleep ms k => AwaitSleep ms (bind k f)
  | Pending => Pending
  end.

(** [try { return await p } catch (error) { handler(error) }] *)
Fixpoint try_catch {A} (p : promise A) (handler : Thrown -> promise A) : promise A :=
  match p with
  | Fulfilled a => Fulfilled a
  | Rejected e => handler e
  | AwaitFetch call k => AwaitFetch call (fun o => try_catch (k o) handler)
  | AwaitSleep ms k => AwaitSleep ms (try_catch k handler)
  | Pending => Pending
  end.

Inductive Outcome (A : Type) : Type :=
| Ok (a : A)
| Err (reason : Thrown).

Arguments Ok {A} a.
Arguments Err {A} reason.

Inductive Event : Type :=
| Fetched (call : FetchCall) (outcome : FetchOutcome)
| Slept (ms : float).

(** The HTTP executor ([config.fetch ?? globalThis.fetch]): what the call
    made after [n] earlier calls ends with. *)
Definition Executor : Type := nat -> FetchCall -> FetchOutcome.

(** One promise awaited to the end: its outcome ([None] if it never
    settles) and what happened, in order.  [calls] counts the calls made
    before. *)
Fixpoint run {A} (fetchImpl : Executor) (calls : nat) (p : promise A)
  : option (Outcome A) * list Event :=
  match p with
  | Fulfilled a => (Some (Ok a), [])
  | Rejected e => (Some (Err e), [])
  | AwaitFetch call k =>
      let o := fetchImpl calls call in
      let '(r, t) := run fetchImpl (S calls) (k o) in
      (r, Fetched call o :: t)
  | AwaitSleep ms k =>
      let '(r, t) := run fetchImpl calls k in
      (r, Slept ms :: t)
  | Pending => (None, [])
  end.

Definition is_fetch (e : Event) : bool :=
  match e with Fetched _ _ => true | Slept _ => false end.

(** The number of network calls in a trace. *)
Definition network_calls (t : list Event) : nat := length (List.filter is_fetch t).

(** The delays slept in a trace, in order. *)
Fixpoint sleeps (t : list Event) : list float :=
  match t with
  | [] => []
  | Slept ms :: t' => ms :: sleeps t'
  | Fetched _ _ :: t' => sleeps t'
  end.

(** ** Numbers of the platform *)

(** [Math.min(x, y)]: [NaN] if either is, else the smaller, [-0] being
    smaller than [+0]. *)
Definition Math_min (x y : float) : float :=
  if is_nan x || is_nan y then nan
  else if (y <? x)%float then y
  else if (x <? y)%float then x
  else if get_sign x then x else y.

(** [Math.pow(base, exponent)] for an exponent that is an integer.
    ECMAScript asks for an implementation-approximated value, so the
    function is the platform's. *)
Class Platform : Type := {
  Math_pow : float -> Z -> float
}.

(** ** [src/http-client.ts] *)

Module Required.
(** [Required<RetryConfig>] *)
Record RetryConfig : Type := {
  maxRetries : Z;
  initialDelay : float;
  maxDelay : float;
  backoffMultiplier : float;
  retryableStatusCodes : list Z
}.
End Required.

Definition DEFAULT_RETRY_CONFIG : Required.RetryConfig := {|
  Required.maxRetries := 3;
  Required.initialDelay := 1000%float;
  Required.maxDelay := 10000%float;
  Required.backoffMultiplier := 2%float;
  Required.retryableStatusCodes := [408; 429; 500; 502; 503; 504]
|}.

(** [{...defaults, ...overrides}]: a property of [overrides] that is
    present replaces the default. *)
Definition spread_retry (defaults : Required.RetryConfig) (overrides : option RetryConfig)
  : Required.RetryConfig :=
  match overrides with
  | None => defaults
  | Some r => {|
      Required.maxRetries := default (Required.maxRetries defaults) (maxRetries r);
      Required.initialDelay := default (Required.initialDelay defaults) (initialDelay r);
      Required.maxDelay := default (Required.maxDelay defaults) (maxDelay r);
      Required.backoffMultiplier :=
        default (Required.backoffMultiplier defaults) (backoffMultiplier r);
      Required.retryableStatusCodes :=
        default (Required.retryableStatusCodes defaults) (retryableStatusCodes r)
    |}
  end.

Module FetchHttpClient.

Record t : Type := {
  baseUrl : string;
  apiToken : string;
  timeout : Z;
  retryConfig : Required.RetryConfig
}.

(** [new FetchHttpClient(config)] *)
Definition new (config : MsGineClientConfig) : Thrown + t :=
  let this := {|
    baseUrl := default "https://api.msgine.net/api/v1" (Types.baseUrl config);
    apiToken := Types.apiToken config;
    timeout := default 30000 (Types.timeout config);
    retryConfig := spread_retry DEFAULT_RETRY_CONFIG (retry config)
  |} in
  if String.eqb (apiToken this) EmptyString then inl (AnError "Error" "API token is required")
  else inr this.

(** [buildUrl(path, queryParams)]; [None] is the [TypeError] of the
    constructor, or an input that the embedding of [URL] does not
    cover. *)
Definition buildUrl (this : t) (path : string)
    (queryParams : option (list (string * QueryValue))) : option string :=
  match URL.new path (baseUrl this) with
  | None => None
  | Some url =>
      let url :=
        match queryParams with
        | Some entries =>
            fold_left (fun u kv => URL.searchParams_append u (fst kv) (String_of (snd kv)))
                      entries url
        | None => url
        end in
      Some (URL.toString url)
  end.

(** [buildHeaders(customHeaders)]: the three literal properties, then
    every property of [customHeaders] assigned over them. *)
Definition buildHeaders (this : t) (customHeaders : option (gmap string string))
  : gmap string string :=
  let literal : gmap string string :=
    <["User-Agent" := "@msgine/sdk/1.0.0"]>
      (<["Content-Type" := "application/json"]>
         (<["Authorization" := apiToken this]> ∅)) in
  match customHeaders with
  | Some custom => map_fold (fun k v acc => <[k := v]> acc) literal custom
  | None => literal
  end.

(** [handleResponse(response)] *)
Definition handleResponse (response : Response) : promise JsonValue :=
  let contentType := content_type response in
  let isJson :=
    match contentType with
    | Some ct => includes ct "application/json"
    | None => false
    end in
  if ok response then
    if isJson then
      match json response with
      | inr data => Fulfilled data
      | inl e => Rejected e
      end
    else
      Rejected (AnMsGineError {|
        error_message := "Unexpected response format";
        statusCode := status response;
        code := Some (JStr "INVALID_RESPONSE_FORMAT");
        details := None;
        requestId := None |})
  else
    let errorMessage :=
      "HTTP " +:+ pretty (status response) +:+ ": " +:+ statusText response in
    let '(errorMessage, errorCode, errorDetails, requestId) :=
      if isJson then
        match json response with
        | inr JNull => (errorMessage, None, None, None)
        | inr errorData =>
            let error := get_prop errorData "error" in
            let meta := get_prop errorData "meta" in
            (nullish (opt_chain error "message") ToString errorMessage,
             opt_chain error "code",
             opt_chain error "details",
             opt_chain meta "requestId")
        | inl _ => (errorMessage, None, None, None)
        end
      else (errorMessage, None, None, None) in
    Rejected (AnMsGineError {|
      error_message := errorMessage;
      statusCode := status response;
      code := errorCode;
      details := errorDetails;
      requestId := requestId |}).

(** [executeRequest(options)]: the URL and the headers are built before
    the [try]; the call and [handleResponse] are inside it.  Where
    [buildUrl] has no URL, the [TypeError] of the constructor leaves the
    function; this is what the code does when the constructor throws, and
    says nothing of the inputs [URL] does not cover. *)
Definition executeRequest (this : t) (options : RequestOptions) : promise JsonValue :=
  match buildUrl this (path options) (queryParams options) with
  | None => Rejected (AnError "TypeError" "Invalid URL")
  | Some url =>
      let headers := buildHeaders this (headers options) in
      try_catch
        (AwaitFetch
           {| call_url := url;
              call_method := method options;
              call_headers := headers;
              call_body :=
                match body options with
                | Some b => if truthy b then Some b else None
                | None => None
                end;
              call_timeout := timeout this |}
           (fun outcome =>
              match outcome with
              | Resolves response => handleResponse response
              | Rejects reason => Rejected reason
              end))
        (fun error =>
           if instanceof_Error error && String.eqb (error_name error) "AbortError" then
             Rejected (AnMsGineError {|
               error_message := "Request timeout";
               statusCode := 408;
               code := Some (JStr "REQUEST_TIMEOUT");
               details := None;
               requestId := None |})
           else if instanceof_Error error then
             Rejected (AnMsGineError {|
               error_message := "Network error: " +:+ message_of error;
               statusCode := 0;
               code := Some (JStr "NETWORK_ERROR");
               details := None;
               requestId := None |})
           else Rejected error)
  end.

(** The delay computed in the [catch] of [request] at [attempt]. *)
Definition delay {platform : Platform} (this : t) (attempt : Z) : float :=
  Math_min (Required.initialDelay (retryConfig this)
            * Math_pow (Required.backoffMultiplier (retryConfig this)) attempt)%float
           (Required.maxDelay (retryConfig this)).

(** How the [while] loop of [request] is left without a [throw]. *)
Inductive Completion : Type :=
| Return (response : JsonValue)
| LoopEnd (lastError : option Thrown).

(** The [while] loop of [request], entered with the given [lastError]
    and [attempt]; [fuel] bounds the iterations. *)
Fixpoint request_loop {platform : Platform} (fuel : nat) (this : t)
    (options : RequestOptions) (lastError : option Thrown) (attempt : Z)
  : promise Completion :=
  if attempt <=? Required.maxRetries (retryConfig this) then
    match fuel with
    | O => Pending
    | S fuel' =>
        try_catch
          (bind (executeRequest this options) (fun r => Fulfilled (Return r)))
          (fun error =>
             match error with
             | AnMsGineError e =>
                 if negb (existsb (Z.eqb (statusCode e))
                            (Required.retryableStatusCodes (retryConfig this)))
                 then Rejected error
                 else if attempt >=? Required.maxRetries (retryConfig this)
                 then Rejected error
                 else AwaitSleep (delay this attempt)
                        (request_loop fuel' this options (Some error) (attempt + 1))
             | _ => Rejected error
             end)
    end
  else Fulfilled (LoopEnd lastError).

(** [request(options)]: the loop from [attempt = 0], then
    [throw lastError]. *)
Definition request {platform : Platform} (this : t) (options : RequestOptions)
  : promise JsonValue :=
  bind (request_loop (Z.to_nat (Required.maxRetries (retryConfig this) + 1))
          this options None 0)
       (fun c =>
          match c with
          | Return response => Fulfilled response
          | LoopEnd lastError => Rejected (default Undefined lastError)
          end).
End FetchHttpClient.

(** ** Concurrent promises *)

(** A promise whose code has run up to its first suspension: settled,
    waiting for an event of the environment (the answer of the executor,
    a timer) to go on as [k], or never to settle. *)
Inductive Task (A : Type) : Type :=
| Settled (o : Outcome A)
| Waiting (k : promise A)
| Never.

Arguments Settled {A} o.
Arguments Waiting {A} k.
Arguments Never {A}.

Record World : Type := {
  calls : nat;
  trace : list Event
}.

(** Runs [p] to its first suspension.  A call to the executor is made
    (and logged with the answer it will get) when [p] reaches it. *)
Definition start {A} (fetchImpl : Executor) (p : promise A) (w : World)
  : Task A * World :=
  match p with
  | Fulfilled a => (Settled (Ok a), w)
  | Rejected e => (Settled (Err e), w)
  | AwaitFetch call k =>
      let o := fetchImpl (calls w) call in
      (Waiting (k o),
       {| calls := S (calls w); trace := trace w ++ [Fetched call o] |})
  | AwaitSleep ms k =>
      (Waiting k, {| calls := calls w; trace := trace w ++ [Slept ms] |})
  | Pending => (Never, w)
  end.

(** The promises given to [Promise.all], the first rejection seen so far
    and the environment. *)
Record AllState (A : Type) : Type := {
  tasks : list (Task A);
  rejection : option Thrown;
  world : World
}.

Arguments tasks {A} _.
Arguments rejection {A} _.
Arguments world {A} _.

Definition note_rejection {A} (seen : option Thrown) (t : Task A) : option Thrown :=
  match seen, t with
  | None, Settled (Err e) => Some e
  | _, _ => seen
  end.

(** The call that creates one more promise. *)
Definition spawn {A} (fetchImpl : Executor) (st : AllState A) (p : promise A)
  : AllState A :=
  let '(t, w) := start fetchImpl p (world st) in
  {| tasks := tasks st ++ [t];
     rejection := note_rejection (rejection st) t;
     world := w |}.

(** The event the [i]-th promise waits for arrives. *)
Definition resume {A} (fetchImpl : Executor) (st : AllState A) (i : nat)
  : AllState A :=
  match tasks st !! i with
  | Some (Waiting k) =>
      let '(t, w) := start fetchImpl k (world st) in
      {| tasks := <[i := t]> (tasks st);
         rejection := note_rejection (rejection st) t;
         world := w |}
  | _ => st
  end.

Definition fulfilled_value {A} (t : Task A) : option A :=
  match t with
  | Settled (Ok a) => Some a
  | _ => None
  end.

(** What the promise of [Promise.all] has settled to: the first
    rejection, else the values in the order of the promises once all are
    there. *)
Definition all_outcome {A} (st : AllState A) : option (Outcome (list A)) :=
  match rejection st with
  | Some e => Some (Err e)
  | None => Ok <$> mapM fulfilled_value (tasks st)
  end.

(** [Promise.all(ps)], the promises [ps] having been created in list
    order, after the events of [schedule] (the indices of the promises
    they wake, in order of arrival). *)
Definition Promise_all_state {A} (fetchImpl : Executor) (ps : list (promise A))
    (schedule : list nat) : AllState A :=
  fold_left (resume fetchImpl) schedule
    (fold_left (spawn fetchImpl) ps
       {| tasks := []; rejection := None; world := {| calls := 0; trace := [] |} |}).

Definition Promise_all {A} (fetchImpl : Executor) (ps : list (promise A))
    (schedule : list nat) : option (Outcome (list A)) * list Event :=
  let st := Promise_all_state fetchImpl ps schedule in
  (all_outcome st, trace (world st)).

(** ** [src/client.ts] *)

Module MsGineClient.

Record t : Type := {
  httpClient : FetchHttpClient.t
}.

(** [new MsGineClient(config)] *)
Definition new (config : MsGineClientConfig) : Thrown + t :=
  match FetchHttpClient.new config with
  | inl e => inl e
  | inr http => inr {| httpClient := http |}
  end.

(** The object [validation.data] as a JSON value. *)
Definition payload_json (data : SendSmsPayload) : JsonValue :=
  JObj [("to", JStr (to data)); ("message", JStr (message data))].

(** [sendSms(payload)] *)
Definition sendSms {platform : Platform} (this : t) (payload : SendSmsPayload)
  : promise JsonValue :=
  let validation := SendSmsSchema_safeParse payload in
  match validation with
  | inl error => Rejected (AnMsGineValidationError "Invalid SMS payload" error)
  | inr data =>
      FetchHttpClient.request (httpClient this)
        {| method := POST;
           path := "/messages/sms";
           body := Some (payload_json data);
           headers := None;
           queryParams := None |}
  end.

Definition success (v : ZodError + SendSmsPayload) : bool :=
  match v with inr _ => true | inl _ => false end.

(** The promises of the per-item sends of [sendSmsBatch(payloads)] after
    the events of [schedule]. *)
Definition batch_state {platform : Platform} (fetchImpl : Executor) (this : t)
    (payloads : list SendSmsPayload) (schedule : list nat) : AllState JsonValue :=
  Promise_all_state fetchImpl (List.map (sendSms this) payloads) schedule.

(** [sendSmsBatch(payloads)] after the events of [schedule]: what its
    promise has settled to, and what happened. *)
Definition sendSmsBatch {platform : Platform} (fetchImpl : Executor) (this : t)
    (payloads : list SendSmsPayload) (schedule : list nat)
  : option (Outcome (list JsonValue)) * list Event :=
  let validations := List.map SendSmsSchema_safeParse payloads in
  let invalidPayload := List.find (fun v => negb (success v)) validations in
  match invalidPayload with
  | Some (inl error) =>
      (Some (Err (AnMsGineValidationError "Invalid SMS payload in batch" error)), [])
  | _ => Promise_all fetchImpl (List.map (sendSms this) payloads) schedule
  end.

End MsGineClient.

(** [createClient(config)] *)
Definition createClient (config : MsGineClientConfig) : Thrown + MsGineClient.t :=
  MsGineClient.new config.

(** ** Reasoning about promises *)

(** An already settled promise. *)
Definition settled {A} (r : Outcome A) : promise A :=
  match r with
  | Ok a => Fulfilled a
  | Err e => Rejected e
  end.

(** [always p Q]: however the environment answers, when [p] stops with
    the events [t] and outcome [r] ([None]: never settled), [Q t r]. *)
Fixpoint always {A} (p : promise A) (Q : list Event -> option (Outcome A) -> Prop)
  : Prop :=
  match p with
  | Fulfilled a => Q [] (Some (Ok a))
  | Rejected e => Q [] (Some (Err e))
  | AwaitFetch call k => forall o, always (k o) (fun t r => Q (Fetched call o :: t) r)
  | AwaitSleep ms k => always k (fun t r => Q (Slept ms :: t) r)
  | Pending => Q [] None
  end.

(** The test double of the test suite: the [n]-th call gets the [n]-th
    scripted outcome, later calls get [otherwise]. *)
Definition scripted (script : list FetchOutcome) (otherwise : FetchOutcome) : Executor :=
  fun n _ => nth n script otherwise.

(** [task_holds t Q]: [Q] holds of every way the task [t] can go on. *)
Definition task_holds {A} (t : Task A) (Q : list Event -> option (Outcome A) -> Prop)
  : Prop :=
  match t with
  | Settled o => Q [] (Some o)
  | Waiting k => always k Q
  | Never => Q [] None
  end.

(** The invariant of [Promise.all] for properties [P i] of the runs of
    its [i]-th promise: each task continues a run of its promise whose
    past events [ti] are in the trace, and a rejection is noted only when
    some task is rejected. *)
Definition all_invariant {A} (P : nat -> list Event -> option (Outcome A) -> Prop)
    (st : AllState A) : Prop :=
  (forall i t, tasks st !! i = Some t ->
     exists ti, (forall e, In e ti -> In e (trace (world st)))
                /\ task_holds t (fun t' r => P i (ti ++ t') r))
  /\ (rejection st <> None ->
      exists i e, tasks st !! i = Some (Settled (Err e))).

(** The tasks of a batch of [n] sends whose [i]-th call is answered with
    [answer i]: each is fulfilled with its answer, or about to be. *)
Definition answered (answer : nat -> JsonValue) (n : nat) (st : AllState JsonValue)
  : Prop :=
  length (tasks st) = n
  /\ rejection st = None
  /\ forall i, (i < n)%nat ->
       tasks st !! i = Some (Waiting (Fulfilled (answer i)))
       \/ tasks st !! i = Some (Settled (Ok (answer i))).

(** A payload that passes the schema. *)
Definition valid (payload : SendSmsPayload) : Prop :=
  MsGineClient.success (SendSmsSchema_safeParse payload) = true.

(** ** The runs of a request *)

(** The call [executeRequest] makes for [options] once [url] is built. *)
Definition the_call (this : FetchHttpClient.t) (options : RequestOptions)
    (url : string) : FetchCall := {|
  call_url := url;
  call_method := method options;
  call_headers := FetchHttpClient.buildHeaders this (headers options);
  call_body := match body options with
               | Some b => if truthy b then Some b else None
               | None => None
               end;
  call_timeout := FetchHttpClient.timeout this
|}.

(** The options [sendSms] gives to [request]. *)
Definition sms_options (payload : SendSmsPayload) : RequestOptions := {|
  method := POST;
  path := "/messages/sms";
  body := Some (MsGineClient.payload_json payload);
  headers := None;
  queryParams := None
|}.

(** The error [executeRequest] makes of an [AbortError]. *)
Definition timeout_error : Thrown :=
  AnMsGineError {|
    error_message := "Request timeout";
    statusCode := 408;
    code := Some (JStr "REQUEST_TIMEOUT");
    details := None;
    requestId := None |}.

(** The error [executeRequest] makes of any other [Error]. *)
Definition network_error (cause : Thrown) : Thrown :=
  AnMsGineError {|
    error_message := "Network error: " +:+ message_of cause;
    statusCode := 0;
    code := Some (JStr "NETWORK_ERROR");
    details := None;
    requestId := None |}.

(** The errors that leave [executeRequest] after a call: its two
    wrappers, or a thrown value that is no [Error]. *)
Definition transport_error (e : Thrown) : Prop :=
  e = timeout_error \/ (exists cause, e = network_error cause)
  \/ instanceof_Error e = false.

(** Calls of one and the same request, with a sleep between each two. *)
Inductive retry_trace (call : FetchCall) : list Event -> Prop :=
| retry_last o : retry_trace call [Fetched call o]
| retry_more o ms t :
    retry_trace call t -> retry_trace call (Fetched call o :: Slept ms :: t).


(** [k] attempts that end in [outcome], from [attempt] on, each followed
    by its backoff. *)
Fixpoint failed_rounds {platform : Platform} (this : FetchHttpClient.t)
    (call : FetchCall) (outcome : FetchOutcome) (k : nat) (attempt : Z)
  : list Event :=
  match k with
  | O => []
  | S k' =>
      Fetched call outcome :: Slept (FetchHttpClient.delay this attempt)
      :: failed_rounds this call outcome k' (attempt + 1)
  end.

(** ** Plain request paths *)

(** A character no state of the URL parser treats specially: an ASCII
    letter or digit, [-] or [_]. *)
Definition plain_char (c : ascii) : bool :=
  URL.is_alpha c || URL.is_digit c || Ascii.eqb c "-" || Ascii.eqb c "_".

(** Plain characters and slashes. *)
Definition plain_path (s : string) : bool :=
  URL.all_chars (fun c => plain_char c || Ascii.eqb c "/") s.

(** A path that begins with exactly one slash: [/], [/a], [/a/b//c]. *)
Definition rooted_path (s : string) : bool :=
  match s with
  | String c rest =>
      Ascii.eqb c "/" && plain_path rest && negb (String.prefix "/" rest)
  | EmptyString => false
  end.

(** A path that begins with a plain character: [a], [a/b/]. *)
Definition unrooted_path (s : string) : bool :=
  match s with
  | String c rest => plain_char c && plain_path rest
  | EmptyString => false
  end.

(** Scheme, host and port of a URL, serialized. *)
Definition origin (u : URL.t) : string :=
  URL.scheme u +:+ "://" +:+ URL.host u
  +:+ match URL.port u with Some p => ":" +:+ pretty p | None => EmptyString end.

(** The path of a URL made of the given segments. *)
Definition join_segments (segs : list string) : string :=
  fold_left (fun acc seg => acc +:+ "/" +:+ seg) segs EmptyString.

(** A string without a colon. *)
Definition no_colon (s : string) : bool :=
  URL.all_chars (fun c => negb (Ascii.eqb c ":")) s.

(** The characters of a serialized form: ASCII letters and digits and
    [*-._], the [%] of an escape and the [+] of a space. *)
Definition form_char (c : ascii) : bool :=
  URL.is_alpha c || URL.is_digit c
  || URL.among [42; 45; 46; 95; 37; 43]%nat (URL.code c).

(** ** Fixtures of the test suite ([src/client.test.ts]) *)

(** The product of [n] factors [base]. *)
Fixpoint repeated_product (base : float) (n : nat) : float :=
  match n with
  | O => 1%float
  | S n' => (base * repeated_product base n')%float
  end.

(** A platform whose [Math.pow] multiplies: it is exact on the powers of
    2 that the retry policies of the test suite ask for. *)
Definition test_platform : Platform := {|
  Math_pow base exponent :=
    if exponent <? 0
    then (1 / repeated_product base (Z.to_nat (- exponent)))%float
    else repeated_product base (Z.to_nat exponent)
|}.

Definition test_config : MsGineClientConfig := {|
  Types.apiToken := "test-token-123";
  Types.baseUrl := None;
  Types.timeout := None;
  retry := None
|}.

(** [createClient()] of the test suite. *)
Definition test_client : MsGineClient.t := {|
  MsGineClient.httpClient := {|
    FetchHttpClient.baseUrl := "https://api.msgine.net/api/v1";
    FetchHttpClient.apiToken := "test-token-123";
    FetchHttpClient.timeout := 30000;
    FetchHttpClient.retryConfig := DEFAULT_RETRY_CONFIG |}
|}.

Definition retry_config : MsGineClientConfig := {|
  Types.apiToken := "test-token";
  Types.baseUrl := None;
  Types.timeout := None;
  retry := Some {| maxRetries := Some 2;
                   initialDelay := Some 10%float;
                   maxDelay := None;
                   backoffMultiplier := None;
                   retryableStatusCodes := None |}
|}.

(** The client of the test "should retry on retryable errors". *)
Definition retry_client : MsGineClient.t := {|
  MsGineClient.httpClient := {|
    FetchHttpClient.baseUrl := "https://api.msgine.net/api/v1";
    FetchHttpClient.apiToken := "test-token";
    FetchHttpClient.timeout := 30000;
    FetchHttpClient.retryConfig := {|
      Required.maxRetries := 2;
      Required.initialDelay := 10%float;
      Required.maxDelay := 10000%float;
      Required.backoffMultiplier := 2%float;
      Required.retryableStatusCodes := [408; 429; 500; 502; 503; 504] |} |}
|}.

Definition custom_config : MsGineClientConfig := {|
  Types.apiToken := "test-token";
  Types.baseUrl := Some "https://custom.api.com/v2";
  Types.timeout := None;
  retry := None
|}.

(** The client of the test "should use custom base URL". *)
Definition custom_client : MsGineClient.t := {|
  MsGineClient.httpClient := {|
    FetchHttpClient.baseUrl := "https://custom.api.com/v2";
    FetchHttpClient.apiToken := "test-token";
    FetchHttpClient.timeout := 30000;
    FetchHttpClient.retryConfig := DEFAULT_RETRY_CONFIG |}
|}.

Definition hello : SendSmsPayload := {|
  to := "+256701521269";
  message := "Hello"
|}.

Definition hello1 : SendSmsPayload := {|
  to := "+256701521269";
  message := "Hello 1"
|}.

Definition hello2 : SendSmsPayload := {|
  to := "+256701521270";
  message := "Hello 2"
|}.

Definition no_recipient : SendSmsPayload := {|
  to := EmptyString;
  message := "Invalid"
|}.

(** ['a'.repeat(n)] *)
Fixpoint repeat_a (n : nat) : string :=
  match n with
  | O => EmptyString
  | S n' => String "a" (repeat_a n')
  end.

(** A mocked delivery result. *)
Definition delivery (id recipient content : string) : JsonValue :=
  JObj [("id", JStr id); ("sid", JNull); ("channel", JStr "sms");
        ("to", JArr [JStr recipient]); ("from", JStr "MsGine");
        ("content", JStr content); ("status", JStr "pending");
        ("cost", JNum {| integer := 30; is_safe := eq_refl |});
        ("currency", JStr "UGX");
        ("createdAt", JStr "2024-01-01T00:00:00Z")].

Definition ok_response (data : JsonValue) : Response := {|
  ok := true;
  status := 200;
  statusText := "OK";
  content_type := Some "application/json";
  json := inr data
|}.

Definition unauthorized : Response := {|
  ok := false;
  status := 401;
  statusText := "Unauthorized";
  content_type := Some "application/json";
  json := inr (JObj [("error", JObj [("code", JStr "UNAUTHORIZED");
                                     ("message", JStr "Invalid API token")])])
|}.

Definition unavailable : Response := {|
  ok := false;
  status := 503;
  statusText := "Service Unavailable";
  content_type := Some "application/json";
  json := inr (JObj [("error",
                      JObj [("code", JStr "SERVICE_UNAVAILABLE");
                            ("message", JStr "Service temporarily unavailable")])])
|}.

Definition aborted : FetchOutcome :=
  Rejects (AnError "AbortError" "The operation was aborted").

Definition network_failure : FetchOutcome :=
  Rejects (AnError "Error" "Network failure").

(** The URLs of the calls of a trace, in order. *)
Fixpoint urls_called (t : list Event) : list string :=
  match t with
  | [] => []
  | Fetched call _ :: t' => call_url call :: urls_called t'
  | Slept _ :: t' => urls_called t'
  end.

(** * Properties *)

Section Always.
Context {A : Type}.
Implicit Types (p : promise A) (Q : list Event -> option (Outcome A) -> Prop).

Lemma always_mono p Q Q' :
  (forall t r, Q t r -> Q' t r) -> always p Q -> always p Q'.
Proof.
  revert Q Q'.
  induction p as [a | e | call k IH | ms k IH | ]; simpl; intros Q Q' HQ Hp; auto.
  - intros o. eapply IH; [ | apply Hp]. simpl. auto.
  - eapply IH; [ | apply Hp]. simpl. auto.
Qed.

Lemma always_run p Q fetchImpl n :
  always p Q -> Q (snd (run fetchImpl n p)) (fst (run fetchImpl n p)).
Proof.
  revert Q n.
  induction p as [a | e | call k IH | ms k IH | ]; simpl; intros Q n Hp; auto.
  - specialize (IH _ _ (S n) (Hp (fetchImpl n call))).
    destruct (run fetchImpl (S n) (k (fetchImpl n call))); exact IH.
  - specialize (IH _ n Hp).
    destruct (run fetchImpl n k); exact IH.
Qed.

Lemma always_try_catch p handler Q :
  always p (fun t r =>
              match r with
              | Some (Err e) => always (handler e) (fun t' r' => Q (t ++ t') r')
              | _ => Q t r
              end) ->
  always (try_catch p handler) Q.
Proof.
  revert Q.
  induction p as [a | e | call k IH | ms k IH | ]; simpl; intros Q Hp; auto.
Qed.

Lemma always_bind {B} p (f : A -> promise B) (Q : list Event -> option (Outcome B) -> Prop) :
  always p (fun t r =>
              match r with
              | Some (Ok a) => always (f a) (fun t' r' => Q (t ++ t') r')
              | Some (Err e) => Q t (Some (Err e))
              | None => Q t None
              end) ->
  always (bind p f) Q.
Proof.
  revert Q.
  induction p as [a | e | call k IH | ms k IH | ]; simpl; intros Q Hp; auto.
Qed.

Lemma always_True p : always p (fun _ _ => True).
Proof. induction p; simpl; auto. Qed.

End Always.

(** ** The validator and [sendSms] *)

Lemma safeParse_invalid payload :
  to payload = EmptyString \/ message payload = EmptyString
  \/ (1600 < String.length (message payload))%nat ->
  exists issue issues, SendSmsSchema_safeParse payload = inl (issue :: issues).
Proof.
  destruct payload as [recipient text]; simpl.
  unfold SendSmsSchema_safeParse, check_min, check_max; simpl.
  intros [-> | [-> | Hlong]]; simpl.
  - eauto.
  - destruct (String.length recipient <? 1)%nat; simpl; eauto.
  - apply Nat.ltb_lt in Hlong. rewrite Hlong.
    destruct (String.length recipient <? 1)%nat;
      destruct (String.length text <? 1)%nat; simpl; eauto.
Qed.

Lemma safeParse_valid payload data :
  SendSmsSchema_safeParse payload = inr data ->
  data = payload /\ to payload <> EmptyString
  /\ (1 <= String.length (message payload) <= 1600)%nat.
Proof.
  destruct payload as [recipient text].
  unfold SendSmsSchema_safeParse, check_min, check_max; simpl.
  destruct (String.length recipient <? 1)%nat eqn:Hto; [discriminate | ].
  destruct (String.length text <? 1)%nat eqn:Hmin; [discriminate | ].
  destruct (1600 <? String.length text)%nat eqn:Hmax; [discriminate | ].
  simpl. intros [= <-].
  apply Nat.ltb_ge in Hto, Hmin, Hmax.
  repeat split; try lia.
  intros ->. simpl in Hto. lia.
Qed.

(** C4.  A payload whose recipient is empty, or whose message is empty
    or longer than 1600 characters, makes [sendSms] fail with a
    [MsGineValidationError] carrying the issues of the schema; the promise
    is rejected before any suspension, so whatever the executor is, it is
    never invoked: the trace of the call is empty. *)
Theorem sendSms_rejects_invalid_payload {platform : Platform}
    (this : MsGineClient.t) (payload : SendSmsPayload)
    (fetchImpl : Executor) (n : nat) :
  to payload = EmptyString \/ message payload = EmptyString
  \/ (1600 < String.length (message payload))%nat ->
  exists errors,
    SendSmsSchema_safeParse payload = inl errors
    /\ errors <> []
    /\ MsGineClient.sendSms this payload
       = Rejected (AnMsGineValidationError "Invalid SMS payload" errors)
    /\ run fetchImpl n (MsGineClient.sendSms this payload)
       = (Some (Err (AnMsGineValidationError "Invalid SMS payload" errors)), [])
    /\ network_calls (snd (run fetchImpl n (MsGineClient.sendSms this payload))) = 0%nat.
Proof.
  intros Hbad.
  destruct (safeParse_invalid payload Hbad) as (issue & issues & Hparse).
  exists (issue :: issues).
  unfold MsGineClient.sendSms. rewrite Hparse. simpl.
  repeat split; congruence.
Qed.

(** ** Request headers *)


(** ** One attempt *)

Lemma handleResponse_settled response :
  exists r, FetchHttpClient.handleResponse response = settled r
    /\ (forall v, r = Ok v -> ok response = true /\ json response = inr v).
Proof.
  unfold FetchHttpClient.handleResponse.
  destruct (ok response).
  - destruct (match content_type response with
              | Some ct => includes ct "application/json"
              | None => false
              end).
    + destruct (json response) as [e | data].
      * exists (Err e). split; [done | discriminate].
      * exists (Ok data). split; [done | ]. by intros v [= <-].
    + eexists (Err _). split; [reflexivity | discriminate].
  - destruct (match content_type response with
              | Some ct => includes ct "application/json"
              | None => false
              end); [destruct (json response) as [e | []] | ];
      eexists (Err _); (split; [reflexivity | discriminate]).
Qed.

(** An attempt either fails to build its URL and makes no call, or makes
    exactly one call and settles when the call ends; it is fulfilled only
    with the JSON body of a response whose [ok] is set. *)
Lemma executeRequest_cases this options :
  (FetchHttpClient.buildUrl this (path options) (queryParams options) = None
   /\ FetchHttpClient.executeRequest this options
      = Rejected (AnError "TypeError" "Invalid URL"))
  \/ (exists url call k,
        FetchHttpClient.buildUrl this (path options) (queryParams options) = Some url
        /\ FetchHttpClient.executeRequest this options = AwaitFetch call k
        /\ call_url call = url
        /\ call_body call = match body options with
                            | Some b => if truthy b then Some b else None
                            | None => None
                            end
        /\ forall o, exists r,
             k o = settled r
             /\ (forall v, r = Ok v ->
                   exists response,
                     o = Resolves response /\ ok response = true
                     /\ json response = inr v)).
Proof.
  unfold FetchHttpClient.executeRequest.
  destruct (FetchHttpClient.buildUrl this (path options) (queryParams options))
    as [url | ]; [right | left; done].
  eexists url, _, _. split; [done | ]. split; [reflexivity | ].
  split; [done | ]. split; [done | ].
  intros [response | reason]; simpl.
  - destruct (handleResponse_settled response) as (r & -> & Hr).
    destruct r as [v | e]; simpl.
    + exists (Ok v). split; [done | ]. intros v' [= <-].
      exists response. destruct (Hr v eq_refl). done.
    + destruct (instanceof_Error e && String.eqb (error_name e) "AbortError");
        [ | destruct (instanceof_Error e)];
        eexists (Err _); (split; [reflexivity | discriminate]).
  - destruct (instanceof_Error reason && String.eqb (error_name reason) "AbortError");
      [ | destruct (instanceof_Error reason)];
      eexists (Err _); (split; [reflexivity | discriminate]).
Qed.

(** What the loop of [request] does with one attempt, for any property
    [Q] of its runs. *)
Lemma request_loop_step {platform : Platform} fuel this options lastError attempt
    (Q : list Event -> option (Outcome FetchHttpClient.Completion) -> Prop) :
  attempt <= Required.maxRetries (FetchHttpClient.retryConfig this) ->
  (forall call response v,
     call_body call = match body options with
                      | Some b => if truthy b then Some b else None
                      | None => None
                      end ->
     ok response = true -> json response = inr v ->
     Q [Fetched call (Resolves response)] (Some (Ok (FetchHttpClient.Return v)))) ->
  (forall t e, (network_calls t <= 1)%nat -> sleeps t = [] ->
     Q t (Some (Err e))) ->
  (forall t e, (network_calls t <= 1)%nat -> sleeps t = [] ->
     attempt < Required.maxRetries (FetchHttpClient.retryConfig this) ->
     always (FetchHttpClient.request_loop fuel this options (Some e) (attempt + 1))
            (fun t' r => Q (t ++ Slept (FetchHttpClient.delay this attempt) :: t') r)) ->
  always (FetchHttpClient.request_loop (S fuel) this options lastError attempt) Q.
Proof.
  intros Hle Hreturn Hthrow Hretry.
  simpl. apply Z.leb_le in Hle. rewrite Hle.
  assert (Hcatch : forall t e, (network_calls t <= 1)%nat -> sleeps t = [] ->
    always
      (match e with
       | AnMsGineError m =>
           if negb (existsb (Z.eqb (statusCode m))
                      (Required.retryableStatusCodes (FetchHttpClient.retryConfig this)))
           then Rejected e
           else if attempt >=? Required.maxRetries (FetchHttpClient.retryConfig this)
           then Rejected e
           else AwaitSleep (FetchHttpClient.delay this attempt)
                  (FetchHttpClient.request_loop fuel this options (Some e) (attempt + 1))
       | _ => Rejected e
       end)
      (fun t' r => Q (t ++ t') r)).
  { intros t e Hcalls Hsleeps.
    destruct e as [m | | | | ]; simpl; rewrite ?app_nil_r; auto.
    destruct (negb _); simpl; rewrite ?app_nil_r; auto.
    destruct (attempt >=? _) eqn:Hge; simpl; rewrite ?app_nil_r; auto.
    apply Hretry; auto. rewrite Z.geb_leb in Hge. apply Z.leb_gt in Hge. lia. }
  destruct (executeRequest_cases this options)
    as [[_ ->] | (url & call & k & _ & -> & _ & Hbody & Hk)]; simpl.
  - apply Hthrow; simpl; auto.
  - intros o. destruct (Hk o) as (r & -> & Hr).
    destruct r as [v | e]; simpl.
    + destruct (Hr v eq_refl) as (response & -> & Hok & Hjson).
      by apply Hreturn.
    + eapply always_mono; [ | apply (Hcatch [Fetched call o] e); simpl; auto].
      simpl. auto.
Qed.

(** ** The retry loop *)

Lemma network_calls_app t1 t2 :
  network_calls (t1 ++ t2) = (network_calls t1 + network_calls t2)%nat.
Proof. unfold network_calls. by rewrite List.filter_app, length_app. Qed.

Lemma sleeps_app t1 t2 : sleeps (t1 ++ t2) = sleeps t1 ++ sleeps t2.
Proof.
  induction t1 as [ | [call o | ms] t1 IH]; simpl; [done | done | by f_equal].
Qed.

Lemma run_bind_settled {A B} fetchImpl n (p : promise A)
    (k : A -> promise B) (g : A -> Outcome B) :
  (forall a, k a = settled (g a)) ->
  run fetchImpl n (bind p k)
  = (match fst (run fetchImpl n p) with
     | Some (Ok a) => Some (g a)
     | Some (Err e) => Some (Err e)
     | None => None
     end, snd (run fetchImpl n p)).
Proof.
  intros Hk. revert n.
  induction p as [a | e | call h IH | ms h IH | ]; simpl; intros n; try done.
  - rewrite Hk. by destruct (g a).
  - rewrite IH. by destruct (run fetchImpl (S n) (h (fetchImpl n call))).
  - rewrite IH. by destruct (run fetchImpl n h).
Qed.

(** While attempts remain, the loop is left by its [return] or by a
    [throw] of its [catch] block, after at most one call per remaining
    attempt. *)
Lemma request_loop_exits {platform : Platform} fuel : forall this options lastError attempt,
  attempt <= Required.maxRetries (FetchHttpClient.retryConfig this) ->
  (Z.to_nat (Required.maxRetries (FetchHttpClient.retryConfig this) + 1 - attempt)
   <= fuel)%nat ->
  always (FetchHttpClient.request_loop fuel this options lastError attempt)
    (fun t r =>
       ((exists v, r = Some (Ok (FetchHttpClient.Return v)))
        \/ (exists e, r = Some (Err e)))
       /\ Z.of_nat (network_calls t)
          <= Required.maxRetries (FetchHttpClient.retryConfig this) + 1 - attempt).
Proof.
  induction fuel as [ | fuel IH]; intros this options lastError attempt Hle Hfuel.
  - lia.
  - apply request_loop_step; [done | | | ].
    + intros call response v _ _ _. split; [eauto | ].
      unfold network_calls; simpl. lia.
    + intros t e Hcalls _. split; [eauto | lia].
    + intros t e Hcalls _ Hlt.
      eapply always_mono; [ | apply (IH this options (Some e) (attempt + 1)); lia].
      simpl. intros t' r [Hr Hcalls']. split; [done | ].
      rewrite network_calls_app.
      change (Slept (FetchHttpClient.delay this attempt) :: t')
        with ([Slept (FetchHttpClient.delay this attempt)] ++ t').
      rewrite network_calls_app. unfold network_calls at 2. simpl. lia.
Qed.

(** An iteration with attempts left makes the call of the request, then
    returns the body of an [ok] response, or throws a transport error, or
    sleeps the delay of the attempt and goes on with the next attempt. *)
Lemma request_loop_iteration {platform : Platform} fuel this options lastError attempt url :
  attempt <= Required.maxRetries (FetchHttpClient.retryConfig this) ->
  FetchHttpClient.buildUrl this (path options) (queryParams options) = Some url ->
  exists k,
    FetchHttpClient.request_loop (S fuel) this options lastError attempt
    = AwaitFetch (the_call this options url) k
    /\ forall o,
         (exists response v,
            o = Resolves response /\ ok response = true
            /\ json response = inr v
            /\ k o = Fulfilled (FetchHttpClient.Return v))
         \/ (exists e, transport_error e /\ k o = Rejected e)
         \/ (exists e,
               attempt < Required.maxRetries (FetchHttpClient.retryConfig this)
               /\ k o = AwaitSleep (FetchHttpClient.delay this attempt)
                          (FetchHttpClient.request_loop fuel this options (Some e)
                             (attempt + 1))).
Proof.
  intros Hle Hurl. simpl.
  rewrite (proj2 (Z.leb_le _ _) Hle).
  unfold FetchHttpClient.executeRequest. rewrite Hurl. simpl.
  eexists. split; [reflexivity | ].
  assert (Hcaught : forall e,
    (exists e', transport_error e' /\
       try_catch
         (bind
            (if instanceof_Error e && String.eqb (error_name e) "AbortError"
             then Rejected timeout_error
             else if instanceof_Error e then Rejected (network_error e)
             else Rejected e)
            (fun r => Fulfilled (FetchHttpClient.Return r)))
         (fun error =>
            match error with
            | AnMsGineError m =>
                if negb (existsb (Z.eqb (statusCode m))
                           (Required.retryableStatusCodes (FetchHttpClient.retryConfig this)))
                then Rejected error
                else if attempt >=? Required.maxRetries (FetchHttpClient.retryConfig this)
                then Rejected error
                else AwaitSleep (FetchHttpClient.delay this attempt)
                       (FetchHttpClient.request_loop fuel this options (Some error)
                          (attempt + 1))
            | _ => Rejected error
            end) = Rejected e')
    \/ (exists e',
          attempt < Required.maxRetries (FetchHttpClient.retryConfig this) /\
          try_catch
            (bind
               (if instanceof_Error e && String.eqb (error_name e) "AbortError"
                then Rejected timeout_error
                else if instanceof_Error e then Rejected (network_error e)
                else Rejected e)
               (fun r => Fulfilled (FetchHttpClient.Return r)))
            (fun error =>
               match error with
               | AnMsGineError m =>
                   if negb (existsb (Z.eqb (statusCode m))
                              (Required.retryableStatusCodes (FetchHttpClient.retryConfig this)))
                   then Rejected error
                   else if attempt >=? Required.maxRetries (FetchHttpClient.retryConfig this)
                   then Rejected error
                   else AwaitSleep (FetchHttpClient.delay this attempt)
                          (FetchHttpClient.request_loop fuel this options (Some error)
                             (attempt + 1))
               | _ => Rejected error
               end)
          = AwaitSleep (FetchHttpClient.delay this attempt)
              (FetchHttpClient.request_loop fuel this options (Some e') (attempt + 1)))).
  { intros e.
    assert (Hlt : forall b, (attempt >=? Required.maxRetries (FetchHttpClient.retryConfig this)) = b ->
                            b = false ->
                            attempt < Required.maxRetries (FetchHttpClient.retryConfig this)).
    { intros b Hb ->. rewrite Z.geb_leb in Hb. apply Z.leb_gt in Hb. lia. }
    destruct (instanceof_Error e && String.eqb (error_name e) "AbortError"); simpl.
    - destruct (negb _); simpl; [left; eexists; split; [by left | done] | ].
      destruct (attempt >=? _) eqn:Hge; simpl;
        [left; eexists; split; [by left | done] | right; eexists; eauto].
    - destruct (instanceof_Error e) eqn:Hinst; simpl.
      + destruct (negb _); simpl;
          [left; eexists; split; [right; left; by eexists | done] | ].
        destruct (attempt >=? _) eqn:Hge; simpl;
          [left; eexists; split; [right; left; by eexists | done]
          | right; eexists; eauto].
      + left. exists e. split; [by right; right | ].
        destruct e; simpl in Hinst; try discriminate; reflexivity. }
  intros [response | reason]; simpl.
  - destruct (handleResponse_settled response) as (r & -> & Hr).
    destruct r as [v | e]; simpl.
    + left. exists response, v. destruct (Hr v eq_refl). done.
    + right. apply Hcaught.
  - right. apply Hcaught.
Qed.

(** Without a URL the request throws the [TypeError] of the model's
    [URL] constructor before any call. *)
Lemma request_without_url {platform : Platform}
    (this : FetchHttpClient.t) (options : RequestOptions)
    (fetchImpl : Executor) (n : nat) :
  0 <= Required.maxRetries (FetchHttpClient.retryConfig this) ->
  FetchHttpClient.buildUrl this (path options) (queryParams options) = None ->
  run fetchImpl n (FetchHttpClient.request this options)
  = (Some (Err (AnError "TypeError" "Invalid URL")), []).
Proof.
  intros Hmax Hurl. unfold FetchHttpClient.request.
  replace (Z.to_nat (Required.maxRetries (FetchHttpClient.retryConfig this) + 1))
    with (S (Z.to_nat (Required.maxRetries (FetchHttpClient.retryConfig this))))
    by lia.
  simpl FetchHttpClient.request_loop.
  rewrite (proj2 (Z.leb_le _ _) Hmax).
  unfold FetchHttpClient.executeRequest. rewrite Hurl. reflexivity.
Qed.


(** ** Backoff *)

(** *** [Math.min] on doubles *)










(** *** The sleeps of a request *)






(** C10.  When [maxRetries] is a non-negative integer, the loop of
    [request] (run with enough fuel for [maxRetries + 1] iterations) is
    always left by its [return] or by a [throw] inside it, never by the
    failure of its condition that leads to the trailing [throw lastError],
    and never for lack of fuel; it makes at most [maxRetries + 1] calls.
    Hence [request] settles after at most [maxRetries + 1] attempts. *)
Theorem request_settles_inside_loop {platform : Platform}
    (this : FetchHttpClient.t) (options : RequestOptions)
    (fetchImpl : Executor) (n : nat) :
  0 <= Required.maxRetries (FetchHttpClient.retryConfig this) ->
  (forall fuel lastError,
     (Z.to_nat (Required.maxRetries (FetchHttpClient.retryConfig this) + 1) <= fuel)%nat ->
     let '(r, t) :=
       run fetchImpl n (FetchHttpClient.request_loop fuel this options lastError 0) in
     ((exists v, r = Some (Ok (FetchHttpClient.Return v)))
      \/ (exists e, r = Some (Err e)))
     /\ Z.of_nat (network_calls t)
        <= Required.maxRetries (FetchHttpClient.retryConfig this) + 1)
  /\ (let '(r, t) := run fetchImpl n (FetchHttpClient.request this options) in
      (exists outcome, r = Some outcome)
      /\ Z.of_nat (network_calls t)
         <= Required.maxRetries (FetchHttpClient.retryConfig this) + 1).
Proof.
  intros Hmax. split.
  - intros fuel lastError Hfuel.
    pose proof (always_run _ _ fetchImpl n
                  (request_loop_exits fuel this options lastError 0
                     ltac:(lia) ltac:(lia))) as H.
    destruct (run fetchImpl n _) as [r t]. simpl in H.
    destruct H as [Hr Hcalls]. split; [done | lia].
  - unfold FetchHttpClient.request.
    rewrite (run_bind_settled fetchImpl n _ _
               (fun c => match c with
                         | FetchHttpClient.Return response => Ok response
                         | FetchHttpClient.LoopEnd lastError =>
                             Err (default Undefined lastError)
                         end)) by (by intros [v | lastError]).
    pose proof (always_run _ _ fetchImpl n
                  (request_loop_exits
                     (Z.to_nat (Required.maxRetries (FetchHttpClient.retryConfig this) + 1))
                     this options None 0 ltac:(lia) ltac:(lia))) as H.
    destruct (run fetchImpl n _) as [r t]. simpl in H |- *.
    destruct H as [[[v ->] | [e ->]] Hcalls]; (split; [eauto | lia]).
Qed.

(** ** Transport failures *)

(** C7.  Under the default retry policy, when the executor fails the
    first call with an [Error] that is not an [AbortError], the request is
    rejected with the [MsGineError] of status 0 and code [NETWORK_ERROR]
    whose message is ["Network error: "] followed by the message of the
    cause, after exactly one call: the failure is not retried. *)
Theorem network_error_is_not_retried {platform : Platform}
    (this : FetchHttpClient.t) (options : RequestOptions)
    (fetchImpl : Executor) (reason : Thrown) (url : string) :
  FetchHttpClient.retryConfig this = DEFAULT_RETRY_CONFIG ->
  FetchHttpClient.buildUrl this (path options) (queryParams options) = Some url ->
  (forall call, fetchImpl 0%nat call = Rejects reason) ->
  instanceof_Error reason = true ->
  error_name reason <> "AbortError" ->
  exists call,
    call_url call = url
    /\ run fetchImpl 0 (FetchHttpClient.request this options)
       = (Some (Err (AnMsGineError {|
                  error_message := "Network error: " +:+ message_of reason;
                  statusCode := 0;
                  code := Some (JStr "NETWORK_ERROR");
                  details := None;
                  requestId := None |})),
          [Fetched call (Rejects reason)])
    /\ network_calls (snd (run fetchImpl 0 (FetchHttpClient.request this options)))
       = 1%nat.
Proof.
  intros Hpolicy Hurl Hfetch Herror Hname.
  apply String.eqb_neq in Hname.
  unfold FetchHttpClient.request. rewrite Hpolicy.
  change (Z.to_nat (Required.maxRetries DEFAULT_RETRY_CONFIG + 1)) with 4%nat.
  simpl FetchHttpClient.request_loop. rewrite Hpolicy. simpl Z.leb.
  unfold FetchHttpClient.executeRequest. rewrite Hurl.
  eexists. split; [ | split].
  2: { simpl. rewrite Hfetch. simpl. rewrite Herror, Hname. simpl.
       reflexivity. }
  - reflexivity.
  - simpl. rewrite Hfetch. simpl. rewrite Herror, Hname. simpl. reflexivity.
Qed.

(** ** The test suite, replayed *)

Example createClient_test_config : createClient test_config = inr test_client.
Proof. reflexivity. Qed.

Example createClient_retry_config : createClient retry_config = inr retry_client.
Proof. reflexivity. Qed.

Example createClient_custom_config : createClient custom_config = inr custom_client.
Proof. reflexivity. Qed.

Example createClient_requires_token :
  createClient {| Types.apiToken := EmptyString; Types.baseUrl := None;
                  Types.timeout := None; retry := None |}
  = inl (AnError "Error" "API token is required").
Proof. reflexivity. Qed.

Example sendSms_succeeds :
  let platform := test_platform in
  let '(r, t) := run (scripted [Resolves (ok_response (delivery "msg_123" "+256701521269" "Hello"))]
                               network_failure)
                     0 (MsGineClient.sendSms test_client hello) in
  r = Some (Ok (delivery "msg_123" "+256701521269" "Hello"))
  /\ network_calls t = 1%nat.
Proof. intros platform. vm_compute. done. Qed.

Example sendSms_message_too_long :
  let platform := test_platform in
  fst (run (scripted [] network_failure) 0
         (MsGineClient.sendSms test_client
            {| to := "+256701521269"; message := repeat_a 1601 |}))
  = Some (Err (AnMsGineValidationError "Invalid SMS payload"
                 [{| issue_path := ["message"]; issue_message := "Message too long" |}])).
Proof. intros platform. vm_compute. reflexivity. Qed.

Example sendSms_timeouts_are_retried :
  let platform := test_platform in
  let '(r, t) := run (scripted [aborted; aborted;
                                Resolves (ok_response (delivery "msg_123" "+256701521269" "Hello"))]
                               network_failure)
                     0 (MsGineClient.sendSms retry_client hello) in
  r = Some (Ok (delivery "msg_123" "+256701521269" "Hello"))
  /\ network_calls t = 3%nat
  /\ sleeps t = [10%float; 20%float].
Proof. intros platform. vm_compute. done. Qed.

(** The delays of the default policy, on a platform whose [Math.pow]
    is exact on the first powers of 2. *)
Lemma default_backoff_sequence {platform : Platform} :
  List.map (Math_pow 2%float) [0; 1; 2; 3; 4; 5] = [1; 2; 4; 8; 16; 32]%float ->
  List.map (fun attempt => FetchHttpClient.delay (MsGineClient.httpClient test_client) attempt)
           [0; 1; 2; 3; 4; 5]
  = [1000; 2000; 4000; 8000; 10000; 10000]%float.
Proof.
  intros [= H0 H1 H2 H3 H4 H5].
  unfold FetchHttpClient.delay. simpl.
  rewrite H0, H1, H2, H3, H4, H5. reflexivity.
Qed.

(** Rounding is that of the code.  With the multiplier 1.1 (the double
    0x1.199999999999ap+0) and a [Math.pow] that returns the double
    nearest to its square, 1.2100000000000002, the delay of attempt 2 is
    1210.0000000000002 (0x1.2e80000000001p+10), not 1210. *)
Lemma backoff_rounds_as_doubles {platform : Platform} :
  Math_pow 0x1.199999999999ap+0%float 2 = 0x1.35c28f5c28f5dp+0%float ->
  FetchHttpClient.delay
    {| FetchHttpClient.baseUrl := "https://api.msgine.net/api/v1";
       FetchHttpClient.apiToken := "test-token";
       FetchHttpClient.timeout := 30000;
       FetchHttpClient.retryConfig := {|
         Required.maxRetries := 3;
         Required.initialDelay := 1000%float;
         Required.maxDelay := 10000%float;
         Required.backoffMultiplier := 0x1.199999999999ap+0%float;
         Required.retryableStatusCodes := [408] |} |} 2
  = 0x1.2e80000000001p+10%float
  /\ 0x1.2e80000000001p+10%float <> 1210%float.
Proof.
  intros Hpow. unfold FetchHttpClient.delay. simpl. rewrite Hpow.
  split; [reflexivity | ].
  intros Heq. apply (f_equal (fun x => (x =? 1210)%float)) in Heq.
  vm_compute in Heq. discriminate.
Qed.

Example default_backoff_sequence_is_slept :
  let platform := test_platform in
  sleeps (snd (run (scripted [] aborted) 0
                 (FetchHttpClient.request
                    {| FetchHttpClient.baseUrl := "https://api.msgine.net/api/v1";
                       FetchHttpClient.apiToken := "test-token";
                       FetchHttpClient.timeout := 30000;
                       FetchHttpClient.retryConfig := {|
                         Required.maxRetries := 6;
                         Required.initialDelay := 1000%float;
                         Required.maxDelay := 10000%float;
                         Required.backoffMultiplier := 2%float;
                         Required.retryableStatusCodes := [408] |} |}
                    {| method := POST; path := "/messages/sms"; body := None;
                       headers := None; queryParams := None |})))
  = [1000; 2000; 4000; 8000; 10000; 10000]%float.
Proof. intros platform. vm_compute. reflexivity. Qed.

(** ** Witnesses *)

Lemma sendSms_rejects_invalid_payload_witness :
  let platform := test_platform in
  to no_recipient = EmptyString
  /\ exists errors,
       SendSmsSchema_safeParse no_recipient = inl errors
       /\ errors <> []
       /\ MsGineClient.sendSms test_client no_recipient
          = Rejected (AnMsGineValidationError "Invalid SMS payload" errors)
       /\ run (scripted [] network_failure) 0
              (MsGineClient.sendSms test_client no_recipient)
          = (Some (Err (AnMsGineValidationError "Invalid SMS payload" errors)), [])
       /\ network_calls (snd (run (scripted [] network_failure) 0
                                (MsGineClient.sendSms test_client no_recipient)))
          = 0%nat.
Proof.
  intros platform.
  split; [reflexivity | ].
  apply (sendSms_rejects_invalid_payload test_client no_recipient
           (scripted [] network_failure) 0).
  left. reflexivity.
Defined.


Lemma request_settles_inside_loop_witness :
  let platform := test_platform in
  let this := MsGineClient.httpClient retry_client in
  let options := {| method := POST; path := "/messages/sms"; body := None;
                    headers := None; queryParams := None |} in
  let fetchImpl := scripted [] aborted in
  0 <= Required.maxRetries (FetchHttpClient.retryConfig this)
  /\ (let '(r, t) := run fetchImpl 0 (FetchHttpClient.request this options) in
      (exists outcome, r = Some outcome)
      /\ Z.of_nat (network_calls t)
         <= Required.maxRetries (FetchHttpClient.retryConfig this) + 1).
Proof.
  intros platform this options fetchImpl.
  assert (Hmax : 0 <= Required.maxRetries (FetchHttpClient.retryConfig this))
    by (vm_compute; discriminate).
  split; [exact Hmax | ].
  exact (proj2 (request_settles_inside_loop this options fetchImpl 0 Hmax)).
Defined.

Lemma network_error_is_not_retried_witness :
  let platform := test_platform in
  let this := MsGineClient.httpClient test_client in
  let options := {| method := POST; path := "/messages/sms";
                    body := Some (MsGineClient.payload_json hello);
                    headers := None; queryParams := None |} in
  let fetchImpl := scripted [network_failure] (Resolves (ok_response JNull)) in
  exists call,
    call_url call = "https://api.msgine.net/messages/sms"
    /\ run fetchImpl 0 (FetchHttpClient.request this options)
       = (Some (Err (AnMsGineError {|
                  error_message := "Network error: Network failure";
                  statusCode := 0;
                  code := Some (JStr "NETWORK_ERROR");
                  details := None;
                  requestId := None |})),
          [Fetched call (Rejects (AnError "Error" "Network failure"))])
    /\ network_calls (snd (run fetchImpl 0 (FetchHttpClient.request this options)))
       = 1%nat.
Proof.
  intros platform this options fetchImpl.
  apply (network_error_is_not_retried this options fetchImpl
           (AnError "Error" "Network failure")
           "https://api.msgine.net/messages/sms").
  - reflexivity.
  - vm_compute. reflexivity.
  - intros call. reflexivity.
  - reflexivity.
  - discriminate.
Defined.

(** ** Where the code departs from its tests *)

(** C1 (refuted on the code).  [new URL(path, baseUrl)] resolves the path
    against the base instead of appending it: with the default base URL
    the call of [sendSms] goes to [/messages/sms] on the host, the
    [/api/v1] of the base is lost; likewise the [/v2] of the custom base
    URL of the test suite. *)
Theorem buildUrl_drops_the_base_path {platform : Platform} :
  FetchHttpClient.buildUrl (MsGineClient.httpClient test_client) "/messages/sms" None
  = Some "https://api.msgine.net/messages/sms"
  /\ (URL.pathname ∘ URL.url) <$> URL.new "/messages/sms" "https://api.msgine.net/api/v1"
     = Some "/messages/sms"
  /\ FetchHttpClient.buildUrl (MsGineClient.httpClient test_client) "/messages/sms" None
     <> Some ("https://api.msgine.net/api/v1" +:+ "/messages/sms")
  /\ urls_called (snd (run (scripted [] network_failure) 0
                         (MsGineClient.sendSms test_client hello)))
     = ["https://api.msgine.net/messages/sms"]
  /\ urls_called (snd (run (scripted [] network_failure) 0
                         (MsGineClient.sendSms custom_client hello)))
     = ["https://custom.api.com/messages/sms"].
Proof. vm_compute. repeat split; discriminate. Qed.

Lemma handleResponse_error_response response :
  ok response = false ->
  exists m, FetchHttpClient.handleResponse response = Rejected (AnMsGineError m)
            /\ statusCode m = status response.
Proof.
  intros Hok. unfold FetchHttpClient.handleResponse. rewrite Hok.
  destruct (match content_type response with
            | Some ct => includes ct "application/json"
            | None => false
            end); [destruct (json response) as [e | []] | ];
    eexists; (split; [reflexivity | reflexivity]).
Qed.

(** Whatever the status of an error response, the error that leaves the
    transport has status 0: the [catch] of [executeRequest] wraps the
    error of [handleResponse] as a network error.  With 0 not retryable,
    no error response is ever retried. *)
Lemma http_error_status_is_lost {platform : Platform}
    (this : FetchHttpClient.t) (options : RequestOptions)
    (fetchImpl : Executor) (response : Response) (url : string) :
  0 <= Required.maxRetries (FetchHttpClient.retryConfig this) ->
  ~ In 0 (Required.retryableStatusCodes (FetchHttpClient.retryConfig this)) ->
  FetchHttpClient.buildUrl this (path options) (queryParams options) = Some url ->
  (forall call, fetchImpl 0%nat call = Resolves response) ->
  ok response = false ->
  exists m,
    fst (run fetchImpl 0 (FetchHttpClient.request this options))
    = Some (Err (AnMsGineError m))
    /\ statusCode m = 0
    /\ code m = Some (JStr "NETWORK_ERROR")
    /\ network_calls (snd (run fetchImpl 0 (FetchHttpClient.request this options)))
       = 1%nat.
Proof.
  intros Hmax Hcodes Hurl Hfetch Hok.
  destruct (handleResponse_error_response response Hok) as (m & Hm & _).
  assert (Hnot : existsb (Z.eqb 0)
                   (Required.retryableStatusCodes (FetchHttpClient.retryConfig this))
                 = false).
  { apply not_true_is_false. intros Hin. apply existsb_exists in Hin as (c & Hc & Heq).
    apply Z.eqb_eq in Heq. by subst. }
  unfold FetchHttpClient.request.
  replace (Z.to_nat (Required.maxRetries (FetchHttpClient.retryConfig this) + 1))
    with (S (Z.to_nat (Required.maxRetries (FetchHttpClient.retryConfig this))))
    by lia.
  simpl FetchHttpClient.request_loop.
  rewrite (proj2 (Z.leb_le _ _) Hmax).
  unfold FetchHttpClient.executeRequest. rewrite Hurl.
  simpl. rewrite Hfetch. rewrite Hm. simpl. rewrite Hnot. simpl.
  eexists. repeat split.
Qed.

(** C2 (refuted on the code).  The test "should retry on retryable
    errors": the executor answers 503, 503, 200.  The 503 error made by
    [handleResponse] is caught by the [catch] of [executeRequest] and
    thrown again as a [NETWORK_ERROR] of status 0, which is not
    retryable: [sendSms] fails after one call. *)
Theorem sendSms_does_not_retry_503 {platform : Platform} :
  let fetchImpl :=
    scripted [Resolves unavailable; Resolves unavailable;
              Resolves (ok_response (delivery "msg_123" "+256701521269" "Hello"))]
             network_failure in
  let '(r, t) := run fetchImpl 0 (MsGineClient.sendSms retry_client hello) in
  r = Some (Err (AnMsGineError {|
                   error_message := "Network error: Service temporarily unavailable";
                   statusCode := 0;
                   code := Some (JStr "NETWORK_ERROR");
                   details := None;
                   requestId := None |}))
  /\ network_calls t = 1%nat
  /\ sleeps t = [].
Proof. vm_compute. done. Qed.

(** C6 (refuted on the code).  The test "should handle API errors": on a
    401 response with a JSON error envelope, exactly one call is made,
    but the error that reaches the caller has status 0 and code
    [NETWORK_ERROR], not the status 401 and the code of the envelope. *)
Theorem sendSms_loses_the_http_status {platform : Platform} :
  let fetchImpl := scripted [Resolves unauthorized; Resolves unauthorized] network_failure in
  let '(r, t) := run fetchImpl 0 (MsGineClient.sendSms test_client hello) in
  r = Some (Err (AnMsGineError {|
                   error_message := "Network error: Invalid API token";
                   statusCode := 0;
                   code := Some (JStr "NETWORK_ERROR");
                   details := None;
                   requestId := None |}))
  /\ network_calls t = 1%nat.
Proof. vm_compute. done. Qed.

(** ** Batches *)

Lemma find_first_invalid payloads :
  Exists (fun payload => ~ valid payload) payloads ->
  exists before payload after errors,
    payloads = before ++ payload :: after
    /\ Forall valid before
    /\ SendSmsSchema_safeParse payload = inl errors
    /\ List.find (fun v => negb (MsGineClient.success v))
         (List.map SendSmsSchema_safeParse payloads)
       = Some (inl errors).
Proof.
  induction payloads as [ | p ps IH]; intros Hbad; [inversion Hbad | ].
  destruct (SendSmsSchema_safeParse p) as [errors | data] eqn:Hp.
  - exists [], p, ps, errors. simpl. rewrite Hp. simpl. by repeat split.
  - assert (Hvalid : valid p) by (unfold valid; by rewrite Hp).
    inversion Hbad as [? ? Hhead | ? ? Htail]; subst; [contradiction | ].
    destruct (IH Htail) as (before & payload & after & errors & -> & Hbefore & Hparse & Hfind).
    exists (p :: before), payload, after, errors.
    simpl. rewrite Hp. simpl. repeat split; auto.
Qed.

(** C5.  When some payload of a batch fails validation, [sendSmsBatch]
    fails with a [MsGineValidationError] carrying the issues of a payload
    of the batch that fails it (the first one), wherever that payload is,
    and the executor is never invoked: the trace is empty, whatever the
    environment does. *)
Theorem sendSmsBatch_rejects_invalid_batch {platform : Platform}
    (fetchImpl : Executor) (this : MsGineClient.t)
    (payloads : list SendSmsPayload) (schedule : list nat) :
  Exists (fun payload => ~ valid payload) payloads ->
  exists before payload after errors,
    payloads = before ++ payload :: after
    /\ Forall valid before
    /\ SendSmsSchema_safeParse payload = inl errors
    /\ MsGineClient.sendSmsBatch fetchImpl this payloads schedule
       = (Some (Err (AnMsGineValidationError "Invalid SMS payload in batch" errors)), [])
    /\ network_calls (snd (MsGineClient.sendSmsBatch fetchImpl this payloads schedule))
       = 0%nat.
Proof.
  intros Hbad.
  destruct (find_first_invalid payloads Hbad)
    as (before & payload & after & errors & Hsplit & Hbefore & Hparse & Hfind).
  exists before, payload, after, errors.
  unfold MsGineClient.sendSmsBatch. rewrite Hfind. simpl.
  by repeat split.
Qed.

Lemma sendSmsBatch_rejects_invalid_batch_witness :
  let platform := test_platform in
  Exists (fun payload => ~ valid payload) [hello; no_recipient]
  /\ exists before payload after errors,
       [hello; no_recipient] = before ++ payload :: after
       /\ Forall valid before
       /\ SendSmsSchema_safeParse payload = inl errors
       /\ MsGineClient.sendSmsBatch (scripted [] network_failure) test_client
            [hello; no_recipient] [0; 1]%nat
          = (Some (Err (AnMsGineValidationError "Invalid SMS payload in batch" errors)), [])
       /\ network_calls (snd (MsGineClient.sendSmsBatch (scripted [] network_failure)
                                test_client [hello; no_recipient] [0; 1]%nat))
          = 0%nat.
Proof.
  intros platform.
  assert (Hbad : Exists (fun payload => ~ valid payload) [hello; no_recipient]).
  { apply Exists_cons_tl, Exists_cons_hd. vm_compute. discriminate. }
  split; [exact Hbad | ].
  exact (sendSmsBatch_rejects_invalid_batch (scripted [] network_failure)
           test_client [hello; no_recipient] [0; 1]%nat Hbad).
Defined.

Example sendSmsBatch_invalid_first :
  let platform := test_platform in
  MsGineClient.sendSmsBatch (scripted [] network_failure) test_client
    [no_recipient; hello] [0; 1]%nat
  = (Some (Err (AnMsGineValidationError "Invalid SMS payload in batch"
                  [{| issue_path := ["to"];
                      issue_message := "Phone number is required" |}])), []).
Proof. intros platform. reflexivity. Qed.

(** *** The invariant of [Promise.all] *)

Lemma start_holds {A} fetchImpl (p : promise A) (w : World)
    (Q : list Event -> option (Outcome A) -> Prop) :
  always p Q ->
  exists ev,
    trace (start fetchImpl p w).2 = trace w ++ ev
    /\ task_holds (start fetchImpl p w).1 (fun t' r => Q (ev ++ t') r).
Proof.
  destruct p as [a | e | call k | ms k | ]; simpl; intros Hp.
  - exists []. by rewrite app_nil_r.
  - exists []. by rewrite app_nil_r.
  - exists [Fetched call (fetchImpl (calls w) call)]. split; [done | apply Hp].
  - exists [Slept ms]. split; [done | apply Hp].
  - exists []. by rewrite app_nil_r.
Qed.

Lemma task_holds_mono {A} (t : Task A)
    (Q Q' : list Event -> option (Outcome A) -> Prop) :
  (forall t' r, Q t' r -> Q' t' r) -> task_holds t Q -> task_holds t Q'.
Proof.
  destruct t as [o | k | ]; simpl; intros HQ H; auto.
  by eapply always_mono.
Qed.

Lemma note_rejection_cases {A} (seen : option Thrown) (t : Task A) :
  note_rejection seen t <> None ->
  seen <> None \/ exists e, t = Settled (Err e).
Proof.
  destruct seen as [e | ]; [by left | ].
  destruct t as [[a | e] | k | ]; simpl; intros H; try done.
  right. by exists e.
Qed.

Lemma spawn_invariant {A} fetchImpl P (st : AllState A) (p : promise A) :
  all_invariant P st ->
  always p (P (length (tasks st))) ->
  all_invariant P (spawn fetchImpl st p).
Proof.
  intros [Htasks Hrej] Hp. unfold spawn.
  destruct (start_holds fetchImpl p (world st) _ Hp) as (ev & Htrace & Hholds).
  destruct (start fetchImpl p (world st)) as [t w]. simpl in *.
  split; simpl.
  - intros i ti Hi.
    apply lookup_app_Some in Hi as [Hi | [Hlen Hi]].
    + destruct (Htasks i ti Hi) as (past & Hpast & Hti).
      exists past. split; [ | done].
      intros e He. rewrite Htrace. apply in_or_app. left. by apply Hpast.
    + apply list_lookup_singleton_Some in Hi as [Hi <-].
      replace i with (length (tasks st)) by lia.
      exists ev. split; [ | done].
      intros e He. rewrite Htrace. apply in_or_app. by right.
  - intros Hnoted.
    apply note_rejection_cases in Hnoted as [Hseen | [e ->]].
    + destruct (Hrej Hseen) as (i & e & Hi).
      exists i, e. by apply lookup_app_l_Some.
    + exists (length (tasks st)), e.
      rewrite lookup_app_r by lia. by rewrite Nat.sub_diag.
Qed.

Lemma resume_invariant {A} fetchImpl P (st : AllState A) (i : nat) :
  all_invariant P st -> all_invariant P (resume fetchImpl st i).
Proof.
  intros [Htasks Hrej]. unfold resume.
  destruct (tasks st !! i) as [[o | k | ] | ] eqn:Hi; try by split.
  destruct (Htasks i _ Hi) as (past & Hpast & Hk). simpl in Hk.
  destruct (start_holds fetchImpl k (world st) _ Hk) as (ev & Htrace & Hholds).
  destruct (start fetchImpl k (world st)) as [t w]. simpl in *.
  split; simpl.
  - intros j tj Hj.
    destruct (decide (i = j)) as [<- | Hne].
    + rewrite list_lookup_insert_eq in Hj by (by eapply lookup_lt_Some).
      injection Hj as <-.
      exists (past ++ ev). split.
      * intros e He. rewrite Htrace. apply in_or_app.
        apply in_app_or in He as [He | He]; [left; by apply Hpast | by right].
      * eapply (task_holds_mono t); [ | exact Hholds].
        intros t' r. simpl. by rewrite <- app_assoc.
    + rewrite list_lookup_insert_ne in Hj by done.
      destruct (Htasks j tj Hj) as (pastj & Hpastj & Htj).
      exists pastj. split; [ | done].
      intros e He. rewrite Htrace. apply in_or_app. left. by apply Hpastj.
  - intros Hnoted.
    apply note_rejection_cases in Hnoted as [Hseen | [e ->]].
    + destruct (Hrej Hseen) as (j & e & Hj).
      exists j, e. rewrite list_lookup_insert_ne; [done | congruence].
    + exists i, e. apply list_lookup_insert_eq. by eapply lookup_lt_Some.
Qed.

Lemma spawn_length {A} fetchImpl (st : AllState A) (p : promise A) :
  length (tasks (spawn fetchImpl st p)) = S (length (tasks st)).
Proof.
  unfold spawn. destruct (start fetchImpl p (world st)). simpl.
  rewrite length_app. simpl. lia.
Qed.

Lemma resume_length {A} fetchImpl (st : AllState A) (i : nat) :
  length (tasks (resume fetchImpl st i)) = length (tasks st).
Proof.
  unfold resume.
  destruct (tasks st !! i) as [[o | k | ] | ]; try done.
  destruct (start fetchImpl k (world st)). simpl. apply length_insert.
Qed.

Lemma spawn_all_invariant {A} fetchImpl P (ps : list (promise A)) :
  forall st : AllState A,
    all_invariant P st ->
    (forall j p, ps !! j = Some p -> always p (P (length (tasks st) + j)%nat)) ->
    all_invariant P (fold_left (spawn fetchImpl) ps st)
    /\ length (tasks (fold_left (spawn fetchImpl) ps st))
       = (length (tasks st) + length ps)%nat.
Proof.
  induction ps as [ | p ps IH]; intros st Hst Hps; simpl.
  - split; [done | lia].
  - destruct (IH (spawn fetchImpl st p)) as [Hinv Hlen].
    + apply spawn_invariant; [done | ].
      specialize (Hps 0%nat p eq_refl). by rewrite Nat.add_0_r in Hps.
    + intros j q Hq. rewrite spawn_length.
      specialize (Hps (S j) q Hq).
      by replace (S (length (tasks st)) + j)%nat
        with (length (tasks st) + S j)%nat by lia.
    + split; [done | ]. rewrite Hlen, spawn_length. lia.
Qed.

Lemma resume_all_invariant {A} fetchImpl P (schedule : list nat) :
  forall st : AllState A,
    all_invariant P st ->
    all_invariant P (fold_left (resume fetchImpl) schedule st)
    /\ length (tasks (fold_left (resume fetchImpl) schedule st))
       = length (tasks st).
Proof.
  induction schedule as [ | i schedule IH]; intros st Hst; simpl; [done | ].
  destruct (IH (resume fetchImpl st i)) as [Hinv Hlen].
  - by apply resume_invariant.
  - split; [done | ]. by rewrite Hlen, resume_length.
Qed.

(** Whatever the order of the events, every promise given to
    [Promise.all] runs as it would alone. *)
Lemma Promise_all_state_invariant {A} fetchImpl P (ps : list (promise A)) schedule :
  (forall i p, ps !! i = Some p -> always p (P i)) ->
  all_invariant P (Promise_all_state fetchImpl ps schedule)
  /\ length (tasks (Promise_all_state fetchImpl ps schedule)) = length ps.
Proof.
  intros Hps. unfold Promise_all_state.
  destruct (spawn_all_invariant fetchImpl P ps
              {| tasks := []; rejection := None;
                 world := {| calls := 0; trace := [] |} |})
    as [Hinv Hlen].
  - split; simpl; [intros i t Hi; by rewrite lookup_nil in Hi | done].
  - simpl. done.
  - destruct (resume_all_invariant fetchImpl P schedule _ Hinv) as [Hinv' Hlen'].
    split; [done | ]. rewrite Hlen', Hlen. simpl. lia.
Qed.

(** *** Where the value of a send comes from *)

Lemma request_loop_returns_response {platform : Platform} fuel : forall this options lastError attempt,
  always (FetchHttpClient.request_loop fuel this options lastError attempt)
    (fun t r => forall v,
       r = Some (Ok (FetchHttpClient.Return v)) ->
       exists call response,
         In (Fetched call (Resolves response)) t
         /\ call_body call = match body options with
                             | Some b => if truthy b then Some b else None
                             | None => None
                             end
         /\ ok response = true /\ json response = inr v).
Proof.
  induction fuel as [ | fuel IH]; intros this options lastError attempt.
  - simpl. destruct (attempt <=? _); simpl; intros v; discriminate.
  - destruct (Z_le_gt_dec attempt
                (Required.maxRetries (FetchHttpClient.retryConfig this)))
      as [Hle | Hgt].
    + apply request_loop_step; [done | | | ].
      * intros call response v Hbody Hok Hjson v' [= <-].
        exists call, response. simpl. auto.
      * intros t e _ _ v; discriminate.
      * intros t e _ _ _.
        eapply always_mono; [ | apply (IH this options (Some e) (attempt + 1))].
        simpl. intros t' r Hrest v Hv.
        destruct (Hrest v Hv) as (call & response & Hin & Hcall).
        exists call, response. split; [ | done].
        apply in_or_app. right. by right.
    + simpl. rewrite (proj2 (Z.leb_gt _ _)) by lia. simpl.
      intros v; discriminate.
Qed.

(** A send is fulfilled only with the JSON body of an [ok] response to
    a call that carried its payload. *)
Lemma sendSms_value_provenance {platform : Platform} this payload :
  valid payload ->
  always (MsGineClient.sendSms this payload)
    (fun t r => forall v,
       r = Some (Ok v) ->
       exists call response,
         In (Fetched call (Resolves response)) t
         /\ call_body call = Some (MsGineClient.payload_json payload)
         /\ ok response = true /\ json response = inr v).
Proof.
  unfold valid, MsGineClient.sendSms. intros Hvalid.
  destruct (SendSmsSchema_safeParse payload) as [errors | data] eqn:Hparse;
    [discriminate | ].
  apply safeParse_valid in Hparse as (-> & _).
  unfold FetchHttpClient.request. apply always_bind.
  eapply always_mono; [ | apply request_loop_returns_response].
  simpl. intros t r Hloop.
  destruct r as [[[v | lastError] | e] | ]; simpl; try (intros v'; discriminate).
  intros v' [= <-]. rewrite app_nil_r. by apply Hloop.
Qed.

Lemma find_invalid_none payloads :
  Forall valid payloads ->
  List.find (fun v => negb (MsGineClient.success v))
    (List.map SendSmsSchema_safeParse payloads) = None.
Proof.
  induction 1 as [ | p ps Hp _ IH]; simpl; [done | ].
  unfold valid in Hp. by rewrite Hp.
Qed.

Lemma mapM_fulfilled_values {A} (values : list A) :
  mapM fulfilled_value (List.map (fun v => Settled (Ok v)) values) = Some values.
Proof.
  induction values as [ | v values IH]; simpl; [done | ].
  by rewrite IH.
Qed.

Lemma all_outcome_fulfilled {A} P (st : AllState A) (values : list A) :
  all_invariant P st ->
  tasks st = List.map (fun v => Settled (Ok v)) values ->
  all_outcome st = Some (Ok values).
Proof.
  intros [_ Hrejection] Htasks. unfold all_outcome.
  destruct (rejection st) as [e | ] eqn:Hnoted.
  - destruct Hrejection as (i & e' & Hi); [done | ].
    rewrite Htasks in Hi.
    change (List.map (fun v => Settled (Ok v)) values)
      with ((fun v : A => Settled (Ok v)) <$> values) in Hi.
    apply list_lookup_fmap_Some in Hi as (v & Hv & _). discriminate.
  - by rewrite Htasks, mapM_fulfilled_values.
Qed.

(** C9.  For valid payloads, when every per-item send of a batch has
    succeeded (the [i]-th with [values !! i]), in whatever order the
    answers arrived, [sendSmsBatch] returns exactly [values]: as many
    results as payloads, in input order, the [i]-th being the JSON body
    of an [ok] response to a call that carried the [i]-th payload. *)
Theorem sendSmsBatch_preserves_order {platform : Platform}
    (fetchImpl : Executor) (this : MsGineClient.t)
    (payloads : list SendSmsPayload) (schedule : list nat)
    (values : list JsonValue) :
  Forall valid payloads ->
  tasks (MsGineClient.batch_state fetchImpl this payloads schedule)
  = List.map (fun v => Settled (Ok v)) values ->
  fst (MsGineClient.sendSmsBatch fetchImpl this payloads schedule) = Some (Ok values)
  /\ length values = length payloads
  /\ forall i payload value,
       payloads !! i = Some payload ->
       values !! i = Some value ->
       exists call response,
         In (Fetched call (Resolves response))
            (snd (MsGineClient.sendSmsBatch fetchImpl this payloads schedule))
         /\ call_body call = Some (MsGineClient.payload_json payload)
         /\ ok response = true
         /\ json response = inr value.
Proof.
  intros Hvalid Htasks.
  pose (P := fun (i : nat) (t : list Event) (r : option (Outcome JsonValue)) =>
               forall payload value,
                 payloads !! i = Some payload -> r = Some (Ok value) ->
                 exists call response,
                   In (Fetched call (Resolves response)) t
                   /\ call_body call = Some (MsGineClient.payload_json payload)
                   /\ ok response = true /\ json response = inr value).
  destruct (Promise_all_state_invariant fetchImpl P
              (List.map (MsGineClient.sendSms this) payloads) schedule)
    as [[Hruns Hrejection] Hlength].
  { intros i p Hp.
    change (List.map (MsGineClient.sendSms this) payloads)
      with (MsGineClient.sendSms this <$> payloads) in Hp.
    apply list_lookup_fmap_Some in Hp as (payload & -> & Hi).
    pose proof (proj1 (Forall_lookup _ _) Hvalid i payload Hi) as Hpayload.
    eapply always_mono; [ | by apply sendSms_value_provenance].
    simpl. intros t r Hprov payload' value Hi' ->.
    assert (payload' = payload) as -> by congruence.
    by apply Hprov. }
  fold (MsGineClient.batch_state fetchImpl this payloads schedule)
    in Hruns, Hrejection, Hlength.
  unfold MsGineClient.sendSmsBatch.
  rewrite (find_invalid_none payloads Hvalid).
  unfold Promise_all.
  fold (MsGineClient.batch_state fetchImpl this payloads schedule).
  simpl. split; [ | split].
  - by apply (all_outcome_fulfilled P).
  - rewrite Htasks in Hlength.
    by rewrite !length_map in Hlength.
  - intros i payload value Hpayload Hvalue.
    destruct (Hruns i (Settled (Ok value))) as (past & Hpast & Hheld).
    { rewrite Htasks.
      change (List.map (fun v => Settled (Ok v)) values)
        with ((fun v => Settled (Ok v)) <$> values).
      by rewrite list_lookup_fmap, Hvalue. }
    simpl in Hheld. rewrite app_nil_r in Hheld.
    destruct (Hheld payload value Hpayload eq_refl)
      as (call & response & Hin & Hcall).
    exists call, response. split; [by apply Hpast | done].
Qed.

Lemma sendSmsBatch_preserves_order_witness :
  let platform := test_platform in
  let fetchImpl :=
    scripted [Resolves (ok_response (delivery "msg_1" "+256701521269" "Hello 1"));
              Resolves (ok_response (delivery "msg_2" "+256701521270" "Hello 2"))]
             network_failure in
  let values := [delivery "msg_1" "+256701521269" "Hello 1";
                 delivery "msg_2" "+256701521270" "Hello 2"] in
  Forall valid [hello1; hello2]
  /\ tasks (MsGineClient.batch_state fetchImpl test_client [hello1; hello2] [1; 0]%nat)
     = List.map (fun v => Settled (Ok v)) values
  /\ fst (MsGineClient.sendSmsBatch fetchImpl test_client [hello1; hello2] [1; 0]%nat)
     = Some (Ok values)
  /\ length values = length [hello1; hello2].
Proof.
  intros platform fetchImpl values.
  assert (Hvalid : Forall valid [hello1; hello2])
    by (repeat constructor; vm_compute; reflexivity).
  assert (Htasks :
    tasks (MsGineClient.batch_state fetchImpl test_client [hello1; hello2] [1; 0]%nat)
    = List.map (fun v => Settled (Ok v)) values)
    by (vm_compute; reflexivity).
  split; [exact Hvalid | ]. split; [exact Htasks | ].
  destruct (sendSmsBatch_preserves_order fetchImpl test_client [hello1; hello2]
              [1; 0]%nat values Hvalid Htasks) as (Hreturned & Hlength & _).
  split; [exact Hreturned | exact Hlength].
Defined.

(** *** A batch whose calls are all answered *)

Lemma sendSms_starts_with_a_call {platform : Platform} fetchImpl this payload url (w : World) response v :
  valid payload ->
  0 <= Required.maxRetries (FetchHttpClient.retryConfig (MsGineClient.httpClient this)) ->
  FetchHttpClient.buildUrl (MsGineClient.httpClient this) "/messages/sms" None = Some url ->
  (forall call, fetchImpl (calls w) call = Resolves response) ->
  ok response = true ->
  content_type response = Some "application/json" ->
  json response = inr v ->
  exists w',
    start fetchImpl (MsGineClient.sendSms this payload) w = (Waiting (Fulfilled v), w')
    /\ calls w' = S (calls w).
Proof.
  intros Hvalid Hmax Hurl Hfetch Hok Htype Hjson.
  unfold valid in Hvalid. unfold MsGineClient.sendSms.
  destruct (SendSmsSchema_safeParse payload) as [errors | data]; [discriminate | ].
  unfold FetchHttpClient.request.
  replace (Z.to_nat (Required.maxRetries
             (FetchHttpClient.retryConfig (MsGineClient.httpClient this)) + 1))
    with (S (Z.to_nat (Required.maxRetries
               (FetchHttpClient.retryConfig (MsGineClient.httpClient this)))))
    by lia.
  simpl FetchHttpClient.request_loop.
  rewrite (proj2 (Z.leb_le _ _) Hmax).
  unfold FetchHttpClient.executeRequest. simpl path. simpl queryParams.
  rewrite Hurl. simpl. rewrite Hfetch.
  unfold FetchHttpClient.handleResponse. rewrite Hok, Htype, Hjson. simpl.
  eexists. split; reflexivity.
Qed.

Section AnsweredBatch.
Context {platform : Platform}
        (fetchImpl : Executor) (this : MsGineClient.t) (url : string)
        (answer : nat -> JsonValue).
Hypothesis Hmax :
  0 <= Required.maxRetries (FetchHttpClient.retryConfig (MsGineClient.httpClient this)).
Hypothesis Hurl :
  FetchHttpClient.buildUrl (MsGineClient.httpClient this) "/messages/sms" None = Some url.
Hypothesis Hfetch :
  forall n call, fetchImpl n call = Resolves (ok_response (answer n)).

Lemma spawn_answered payloads : forall st,
  Forall valid payloads ->
  answered answer (length (tasks st)) st ->
  calls (world st) = length (tasks st) ->
  answered answer (length (tasks st) + length payloads)
    (fold_left (spawn fetchImpl) (List.map (MsGineClient.sendSms this) payloads) st).
Proof.
  induction payloads as [ | p ps IH]; intros st Hvalid Hst Hcalls; simpl.
  - by rewrite Nat.add_0_r.
  - inversion Hvalid as [ | ? ? Hp Hps]; subst.
    destruct (sendSms_starts_with_a_call fetchImpl this p url (world st)
                (ok_response (answer (calls (world st)))) (answer (calls (world st))))
      as (w' & Hstart & Hcalls'); auto.
    assert (Hspawn : spawn fetchImpl st (MsGineClient.sendSms this p)
                     = {| tasks := tasks st ++ [Waiting (Fulfilled (answer (length (tasks st))))];
                          rejection := rejection st;
                          world := w' |}).
    { unfold spawn. rewrite Hstart, Hcalls. simpl. by destruct (rejection st). }
    rewrite Hspawn.
    replace (length (tasks st) + S (length ps))%nat
      with (length (tasks st ++ [Waiting (Fulfilled (answer (length (tasks st))))])
            + length ps)%nat
      by (rewrite length_app; simpl; lia).
    apply (IH {| tasks := tasks st ++ [_]; rejection := rejection st; world := w' |});
      simpl; [done | | rewrite length_app; simpl; lia].
    destruct Hst as (_ & Hrej & Hst). split; [done | ]. split; [done | ].
    intros i Hi. simpl. rewrite length_app in Hi. simpl in Hi.
    destruct (decide (i < length (tasks st))%nat) as [Hlt | Hge].
    + rewrite lookup_app_l by done. by apply Hst.
    + left. rewrite lookup_app_r by lia.
      replace (i - length (tasks st))%nat with 0%nat by lia. simpl.
      by replace i with (length (tasks st)) by lia.
Qed.

Lemma resume_answered n st i :
  answered answer n st ->
  answered answer n (resume fetchImpl st i)
  /\ ((i < n)%nat -> tasks (resume fetchImpl st i) !! i = Some (Settled (Ok (answer i))))
  /\ (forall j, tasks st !! j = Some (Settled (Ok (answer j))) ->
        tasks (resume fetchImpl st i) !! j = Some (Settled (Ok (answer j)))).
Proof.
  intros (Hlen & Hrej & Hst). unfold answered, resume.
  destruct (decide (i < n)%nat) as [Hi | Hi].
  - destruct (Hst i Hi) as [Hwait | Hdone]; [rewrite Hwait | rewrite Hdone]; simpl.
    + split; [ | split].
      * split; [by rewrite length_insert | ]. split; [by rewrite Hrej | ].
        intros j Hj. destruct (decide (i = j)) as [<- | Hne].
        -- right. apply list_lookup_insert_eq. lia.
        -- rewrite list_lookup_insert_ne by done. by apply Hst.
      * intros _. apply list_lookup_insert_eq. lia.
      * intros j Hj. destruct (decide (i = j)) as [<- | Hne]; [congruence | ].
        by rewrite list_lookup_insert_ne.
    + by repeat split.
  - rewrite (lookup_ge_None_2 (tasks st) i) by lia.
    repeat split; auto. lia.
Qed.

Lemma schedule_answered n schedule : forall st,
  answered answer n st ->
  answered answer n (fold_left (resume fetchImpl) schedule st)
  /\ forall i, (i < n)%nat ->
       In i schedule \/ tasks st !! i = Some (Settled (Ok (answer i))) ->
       tasks (fold_left (resume fetchImpl) schedule st) !! i
       = Some (Settled (Ok (answer i))).
Proof.
  induction schedule as [ | j schedule IH]; intros st Hst; simpl.
  - split; [done | ]. by intros i _ [[] | Hdone].
  - destruct (resume_answered n st j Hst) as (Hst' & Hnow & Hkept).
    destruct (IH _ Hst') as [Hfinal Hall].
    split; [done | ].
    intros i Hi [[-> | Hin] | Hdone]; apply Hall; auto.
Qed.

(** When the executor answers every call with a JSON success, every
    send of a valid batch is fulfilled once its answer has arrived, with
    the answer to the call of its rank. *)
Lemma batch_state_all_answered payloads schedule :
  Forall valid payloads ->
  (forall i, (i < length payloads)%nat -> In i schedule) ->
  tasks (MsGineClient.batch_state fetchImpl this payloads schedule)
  = List.map (fun v => Settled (Ok v)) (List.map answer (seq 0 (length payloads))).
Proof.
  intros Hvalid Hschedule.
  unfold MsGineClient.batch_state, Promise_all_state.
  pose proof (spawn_answered payloads
                {| tasks := []; rejection := None;
                   world := {| calls := 0; trace := [] |} |} Hvalid) as Hspawned.
  simpl in Hspawned.
  assert (Hinit : answered answer 0 {| tasks := []; rejection := None;
                                world := {| calls := 0; trace := [] |} |}).
  { split; [done | ]. split; [done | ]. intros i Hi. lia. }
  destruct (schedule_answered (length payloads) schedule _ (Hspawned Hinit eq_refl))
    as [(Hlen & _ & _) Hall].
  apply list_eq. intros i.
  destruct (decide (i < length payloads)%nat) as [Hi | Hi].
  - rewrite (Hall i Hi (or_introl (Hschedule i Hi))).
    change (List.map (fun v => Settled (Ok v)) (List.map answer (seq 0 (length payloads))))
      with ((fun v => Settled (Ok v)) <$> (answer <$> seq 0 (length payloads))).
    rewrite !list_lookup_fmap, lookup_seq_lt by done. done.
  - rewrite !lookup_ge_None_2; [done | | lia].
    rewrite !length_map, length_seq. lia.
Qed.

(** Such a batch returns the answers to its calls, in input order. *)
Lemma sendSmsBatch_returns_all_answers payloads schedule :
  Forall valid payloads ->
  (forall i, (i < length payloads)%nat -> In i schedule) ->
  fst (MsGineClient.sendSmsBatch fetchImpl this payloads schedule)
  = Some (Ok (List.map answer (seq 0 (length payloads)))).
Proof.
  intros Hvalid Hschedule.
  unfold MsGineClient.sendSmsBatch.
  rewrite (find_invalid_none payloads Hvalid).
  unfold Promise_all. simpl.
  apply (all_outcome_fulfilled (fun _ _ _ => True)).
  - apply Promise_all_state_invariant. intros i p _. apply always_True.
  - by apply batch_state_all_answered.
Qed.

End AnsweredBatch.

(** * Further properties of the code *)

(** ** The schema *)

(** X1.  [SendSmsSchema] accepts a payload, and returns it unchanged,
    exactly when its recipient has at least one character and its message
    between 1 and 1600. *)
Theorem safeParse_accepts_exactly (payload : SendSmsPayload) :
  SendSmsSchema_safeParse payload = inr payload
  <-> (1 <= String.length (to payload))%nat
      /\ (1 <= String.length (message payload) <= 1600)%nat.
Proof.
  split.
  - intros Hparse. destruct (safeParse_valid payload payload Hparse) as (_ & Hto & Hlen).
    split; [ | done].
    destruct (to payload); [done | simpl; lia].
  - intros (Hto & Hmin & Hmax).
    destruct payload as [recipient text]; simpl in *.
    unfold SendSmsSchema_safeParse, check_min, check_max; simpl.
    rewrite (proj2 (Nat.ltb_ge _ _) Hto), (proj2 (Nat.ltb_ge _ _) Hmin),
      (proj2 (Nat.ltb_ge _ _) Hmax).
    reflexivity.
Qed.

(** X2.  The error of the schema lists one issue per field at fault, the
    recipient first: "Phone number is required" for an empty recipient,
    then "Message is required" for an empty message or "Message too long"
    for one above 1600 characters, never both; a payload without fault is
    returned as it is. *)
Theorem safeParse_reports_each_field_once (payload : SendSmsPayload) :
  SendSmsSchema_safeParse payload =
  match
    (if (String.length (to payload) =? 0)%nat
     then [{| issue_path := ["to"]; issue_message := "Phone number is required" |}]
     else [])
    ++ (if (String.length (message payload) =? 0)%nat
        then [{| issue_path := ["message"]; issue_message := "Message is required" |}]
        else if (1600 <? String.length (message payload))%nat
        then [{| issue_path := ["message"]; issue_message := "Message too long" |}]
        else [])
  with
  | [] => inr payload
  | issue :: issues => inl (issue :: issues)
  end.
Proof.
  destruct payload as [recipient text]; simpl.
  unfold SendSmsSchema_safeParse, check_min, check_max; simpl.
  destruct (String.length recipient) as [ | n] eqn:Hto;
    destruct (String.length text) as [ | m] eqn:Htext; simpl; try reflexivity.
  all: try (destruct (1600 <? S m)%nat; reflexivity).
Qed.

(** ** Construction *)

(** X3.  [createClient] fails, with the error "API token is required",
    exactly when the token is empty; otherwise the client keeps the token
    of the configuration, so no client has an empty token. *)
Theorem createClient_needs_a_token (config : MsGineClientConfig) :
  (Types.apiToken config = EmptyString
   /\ createClient config = inl (AnError "Error" "API token is required"))
  \/ (Types.apiToken config <> EmptyString
      /\ exists client,
           createClient config = inr client
           /\ FetchHttpClient.apiToken (MsGineClient.httpClient client)
              = Types.apiToken config
           /\ FetchHttpClient.baseUrl (MsGineClient.httpClient client)
              = default "https://api.msgine.net/api/v1" (Types.baseUrl config)
           /\ FetchHttpClient.timeout (MsGineClient.httpClient client)
              = default 30000 (Types.timeout config)
           /\ (retry config = None ->
               FetchHttpClient.retryConfig (MsGineClient.httpClient client)
               = DEFAULT_RETRY_CONFIG)).
Proof.
  unfold createClient, MsGineClient.new, FetchHttpClient.new. simpl.
  destruct (String.eqb_spec (Types.apiToken config) EmptyString) as [Heq | Hne].
  - left. done.
  - right. split; [done | ]. eexists. split; [reflexivity | ]. simpl.
    repeat split. intros ->. reflexivity.
Qed.

Lemma createClient_needs_a_token_witness :
  retry test_config = None
  /\ ((Types.apiToken test_config = EmptyString
       /\ createClient test_config = inl (AnError "Error" "API token is required"))
      \/ (Types.apiToken test_config <> EmptyString
          /\ exists client,
               createClient test_config = inr client
               /\ FetchHttpClient.apiToken (MsGineClient.httpClient client)
                  = Types.apiToken test_config
               /\ FetchHttpClient.baseUrl (MsGineClient.httpClient client)
                  = default "https://api.msgine.net/api/v1" (Types.baseUrl test_config)
               /\ FetchHttpClient.timeout (MsGineClient.httpClient client)
                  = default 30000 (Types.timeout test_config)
               /\ (retry test_config = None ->
                   FetchHttpClient.retryConfig (MsGineClient.httpClient client)
                   = DEFAULT_RETRY_CONFIG))).
Proof.
  split; [reflexivity | ].
  exact (createClient_needs_a_token test_config).
Defined.

(** ** Responses *)

(** X4.  [handleResponse] returns a value exactly for a response whose
    [ok] is set, whose content type mentions [application/json] and whose
    body parses; the value is the parsed body. *)
Theorem handleResponse_fulfils_exactly (response : Response) (v : JsonValue) :
  FetchHttpClient.handleResponse response = Fulfilled v
  <-> ok response = true
      /\ (exists ct, content_type response = Some ct
                     /\ includes ct "application/json" = true)
      /\ json response = inr v.
Proof.
  unfold FetchHttpClient.handleResponse. split.
  - destruct (ok response).
    + destruct (content_type response) as [ct | ]; [ | discriminate].
      destruct (includes ct "application/json") eqn:Hjson; [ | discriminate].
      destruct (json response) as [e | data]; [discriminate | ].
      intros [= <-]. eauto.
    + destruct (content_type response) as [ct | ];
        [destruct (includes ct "application/json");
         [destruct (json response) as [e | []] | ] | ]; discriminate.
  - intros (-> & (ct & -> & ->) & ->). reflexivity.
Qed.

(** X5.  For a response that is not [ok] and carries no usable JSON
    envelope (another content type, a body that does not parse, or the
    JSON [null]), [handleResponse] throws the [MsGineError] with the
    status of the response, the message "HTTP <status>: <statusText>",
    and neither code, details nor request id. *)
Theorem handleResponse_generic_error (response : Response) :
  ok response = false ->
  (forall ct, content_type response = Some ct ->
              includes ct "application/json" = true ->
              (exists e, json response = inl e) \/ json response = inr JNull) ->
  FetchHttpClient.handleResponse response
  = Rejected (AnMsGineError {|
      error_message := "HTTP " +:+ pretty (status response) +:+ ": "
                       +:+ statusText response;
      statusCode := status response;
      code := None;
      details := None;
      requestId := None |}).
Proof.
  intros Hok Hbody. unfold FetchHttpClient.handleResponse. rewrite Hok.
  destruct (content_type response) as [ct | ]; [ | reflexivity].
  destruct (includes ct "application/json") eqn:Hjson; [ | reflexivity].
  destruct (Hbody ct eq_refl Hjson) as [[e ->] | ->]; reflexivity.
Qed.

Lemma handleResponse_generic_error_witness :
  let response := {| ok := false; status := 502; statusText := "Bad Gateway";
                     content_type := Some "text/html";
                     json := inl (AnError "SyntaxError" "Unexpected token <") |} in
  FetchHttpClient.handleResponse response
  = Rejected (AnMsGineError {|
      error_message := "HTTP 502: Bad Gateway";
      statusCode := 502;
      code := None;
      details := None;
      requestId := None |}).
Proof.
  intros response.
  apply (handleResponse_generic_error response).
  - reflexivity.
  - intros ct [= <-]. vm_compute. discriminate.
Defined.

(** X6.  For a response that is not [ok] and whose JSON body has an
    [error] with a string [message], [handleResponse] throws the
    [MsGineError] with the status of the response and the message of the
    envelope; its code and details are those of [error], its request id
    that of [meta], each undefined when absent. *)
Theorem handleResponse_envelope_error
    (response : Response) (ct : string) (errorData error : JsonValue) (m : string) :
  ok response = false ->
  content_type response = Some ct ->
  includes ct "application/json" = true ->
  json response = inr errorData ->
  get_prop errorData "error" = Some error ->
  get_prop error "message" = Some (JStr m) ->
  FetchHttpClient.handleResponse response
  = Rejected (AnMsGineError {|
      error_message := m;
      statusCode := status response;
      code := get_prop error "code";
      details := get_prop error "details";
      requestId := opt_chain (get_prop errorData "meta") "requestId" |}).
Proof.
  intros Hok Hct Hjson Hbody Herror Hmessage.
  unfold FetchHttpClient.handleResponse. rewrite Hok, Hct, Hjson, Hbody.
  destruct errorData as [ | b | n | s | items | props]; try discriminate.
  rewrite Herror.
  destruct error as [ | b | n | s | items | eprops]; try discriminate.
  assert (Hchain : forall key, opt_chain (Some (JObj eprops)) key
                               = get_prop (JObj eprops) key) by reflexivity.
  rewrite !Hchain, Hmessage. reflexivity.
Qed.

Lemma handleResponse_envelope_error_witness :
  FetchHttpClient.handleResponse unauthorized
  = Rejected (AnMsGineError {|
      error_message := "Invalid API token";
      statusCode := 401;
      code := Some (JStr "UNAUTHORIZED");
      details := None;
      requestId := None |}).
Proof.
  apply (handleResponse_envelope_error unauthorized "application/json"
           (JObj [("error", JObj [("code", JStr "UNAUTHORIZED");
                                  ("message", JStr "Invalid API token")])])
           (JObj [("code", JStr "UNAUTHORIZED"); ("message", JStr "Invalid API token")])
           "Invalid API token"); reflexivity.
Defined.

Lemma retry_trace_calls call t :
  retry_trace call t ->
  (forall c o, In (Fetched c o) t -> c = call)
  /\ network_calls t = S (length (sleeps t)).
Proof.
  induction 1 as [o | o ms t _ [IHcalls IHcount]].
  - split; [ | reflexivity].
    intros c o' [[= -> _] | []]. reflexivity.
  - split.
    + intros c o' [[= -> _] | [[=] | Hin]]; [reflexivity | by eapply IHcalls].
    + change (network_calls (Fetched call o :: Slept ms :: t))
        with (S (network_calls t)).
      simpl. by rewrite IHcount.
Qed.

(** With enough fuel, every run of the loop is a sequence of calls of the
    same request separated by sleeps; it ends by the [return] or by the
    [throw] of a transport error. *)
Lemma request_loop_runs {platform : Platform} fuel : forall this options lastError attempt url,
  FetchHttpClient.buildUrl this (path options) (queryParams options) = Some url ->
  attempt <= Required.maxRetries (FetchHttpClient.retryConfig this) ->
  (Z.to_nat (Required.maxRetries (FetchHttpClient.retryConfig this) + 1 - attempt)
   <= fuel)%nat ->
  always (FetchHttpClient.request_loop fuel this options lastError attempt)
    (fun t r =>
       retry_trace (the_call this options url) t
       /\ ((exists v, r = Some (Ok (FetchHttpClient.Return v)))
           \/ (exists e, r = Some (Err e) /\ transport_error e))).
Proof.
  induction fuel as [ | fuel IH]; intros this options lastError attempt url Hurl Hle Hfuel;
    [lia | ].
  destruct (request_loop_iteration fuel this options lastError attempt url Hle Hurl)
    as (k & -> & Hk).
  simpl. intros o.
  destruct (Hk o) as [(response & v & _ & _ & _ & ->)
                     | [(e & He & ->) | (e & Hlt & ->)]]; simpl.
  - split; [constructor | eauto].
  - split; [constructor | eauto].
  - eapply always_mono;
      [ | apply (IH this options (Some e) (attempt + 1) url Hurl); lia].
    simpl. intros t r [Htrace Hr]. split; [by constructor | done].
Qed.

Lemma request_runs {platform : Platform} this options url :
  0 <= Required.maxRetries (FetchHttpClient.retryConfig this) ->
  FetchHttpClient.buildUrl this (path options) (queryParams options) = Some url ->
  always (FetchHttpClient.request this options)
    (fun t r =>
       retry_trace (the_call this options url) t
       /\ ((exists v, r = Some (Ok v))
           \/ (exists e, r = Some (Err e) /\ transport_error e))).
Proof.
  intros Hmax Hurl. unfold FetchHttpClient.request. apply always_bind.
  eapply always_mono;
    [ | apply (request_loop_runs _ this options None 0 url Hurl); lia].
  simpl. intros t r [Htrace [[v ->] | (e & -> & He)]]; simpl; rewrite ?app_nil_r; eauto.
Qed.

(** X7.  Whatever the executor answers, the events of a request are
    calls separated by sleeps, beginning and ending with a call, and
    every call is the same: the URL built from the options, their
    method, the merged headers, the body and the client's timeout.  So a
    request makes one call more than it sleeps. *)
Theorem request_repeats_one_call {platform : Platform}
    (this : FetchHttpClient.t) (options : RequestOptions) (url : string)
    (fetchImpl : Executor) (n : nat) :
  0 <= Required.maxRetries (FetchHttpClient.retryConfig this) ->
  FetchHttpClient.buildUrl this (path options) (queryParams options) = Some url ->
  let t := snd (run fetchImpl n (FetchHttpClient.request this options)) in
  retry_trace (the_call this options url) t
  /\ (forall call o, In (Fetched call o) t -> call = the_call this options url)
  /\ network_calls t = S (length (sleeps t)).
Proof.
  intros Hmax Hurl t.
  pose proof (always_run _ _ fetchImpl n (request_runs this options url Hmax Hurl))
    as [Htrace _].
  split; [exact Htrace | by apply retry_trace_calls].
Qed.

Lemma request_repeats_one_call_witness :
  let platform := test_platform in
  let this := MsGineClient.httpClient retry_client in
  let fetchImpl := scripted [aborted; aborted] (Resolves (ok_response JNull)) in
  let t := snd (run fetchImpl 0 (FetchHttpClient.request this (sms_options hello))) in
  0 <= Required.maxRetries (FetchHttpClient.retryConfig this)
  /\ retry_trace (the_call this (sms_options hello) "https://api.msgine.net/messages/sms") t
  /\ network_calls t = S (length (sleeps t))
  /\ network_calls t = 3%nat.
Proof.
  intros platform this fetchImpl t.
  assert (Hmax : 0 <= Required.maxRetries (FetchHttpClient.retryConfig this))
    by (vm_compute; discriminate).
  assert (Hurl : FetchHttpClient.buildUrl this (path (sms_options hello))
                   (queryParams (sms_options hello))
                 = Some "https://api.msgine.net/messages/sms")
    by (vm_compute; reflexivity).
  destruct (request_repeats_one_call this (sms_options hello) _ fetchImpl 0 Hmax Hurl)
    as (Htrace & _ & Hcount).
  split; [exact Hmax | ]. split; [exact Htrace | ]. split; [exact Hcount | ].
  vm_compute. reflexivity.
Defined.

(** X8.  A rejected request that made a call carries the timeout error
    (408, [REQUEST_TIMEOUT]), a network error (0, [NETWORK_ERROR]) or a
    thrown value that is no [Error]: never a [MsGineError] with another
    status, and never a validation error. *)
Theorem request_rejects_with_transport_errors {platform : Platform}
    (this : FetchHttpClient.t) (options : RequestOptions) (url : string)
    (fetchImpl : Executor) (n : nat) (e : Thrown) :
  0 <= Required.maxRetries (FetchHttpClient.retryConfig this) ->
  FetchHttpClient.buildUrl this (path options) (queryParams options) = Some url ->
  fst (run fetchImpl n (FetchHttpClient.request this options)) = Some (Err e) ->
  transport_error e
  /\ (forall m, e = AnMsGineError m -> statusCode m = 0 \/ statusCode m = 408)
  /\ (forall msg errors, e <> AnMsGineValidationError msg errors).
Proof.
  intros Hmax Hurl Hrun.
  pose proof (always_run _ _ fetchImpl n (request_runs this options url Hmax Hurl))
    as [_ [[v Hv] | (e' & He' & Herror)]]; [congruence | ].
  rewrite Hrun in He'. injection He' as <-.
  split; [exact Herror | ].
  destruct Herror as [-> | [[cause ->] | Hinst]]; split;
    try (intros m [= <-]; simpl; auto); try discriminate.
  - intros m ->. discriminate.
  - intros msg errors ->. discriminate.
Qed.

Lemma request_rejects_with_transport_errors_witness :
  let platform := test_platform in
  let this := MsGineClient.httpClient test_client in
  let fetchImpl := scripted [Resolves unauthorized] network_failure in
  0 <= Required.maxRetries (FetchHttpClient.retryConfig this)
  /\ fst (run fetchImpl 0 (FetchHttpClient.request this (sms_options hello)))
     = Some (Err (network_error (AnError "MsGineError" "Invalid API token")))
  /\ transport_error (network_error (AnError "MsGineError" "Invalid API token")).
Proof.
  intros platform this fetchImpl.
  assert (Hmax : 0 <= Required.maxRetries (FetchHttpClient.retryConfig this))
    by (vm_compute; discriminate).
  assert (Hurl : FetchHttpClient.buildUrl this (path (sms_options hello))
                   (queryParams (sms_options hello))
                 = Some "https://api.msgine.net/messages/sms")
    by (vm_compute; reflexivity).
  assert (Hrun : fst (run fetchImpl 0 (FetchHttpClient.request this (sms_options hello)))
                 = Some (Err (network_error (AnError "MsGineError" "Invalid API token"))))
    by (vm_compute; reflexivity).
  split; [exact Hmax | ]. split; [exact Hrun | ].
  exact (proj1 (request_rejects_with_transport_errors this (sms_options hello) _
                  fetchImpl 0 _ Hmax Hurl Hrun)).
Defined.

(** X9.  Every call [sendSms] makes for a valid payload, first attempt
    or retry, is a [POST] to the URL built for [/messages/sms] whose body
    is the payload [{to, message}] as given, with the API token as
    [Authorization], [application/json] as [Content-Type], the SDK's
    [User-Agent], and the client's timeout. *)
Theorem sendSms_sends_the_payload {platform : Platform}
    (this : MsGineClient.t) (payload : SendSmsPayload) (url : string)
    (fetchImpl : Executor) (n : nat) (call : FetchCall) (o : FetchOutcome) :
  valid payload ->
  0 <= Required.maxRetries (FetchHttpClient.retryConfig (MsGineClient.httpClient this)) ->
  FetchHttpClient.buildUrl (MsGineClient.httpClient this) "/messages/sms" None = Some url ->
  In (Fetched call o) (snd (run fetchImpl n (MsGineClient.sendSms this payload))) ->
  call_url call = url
  /\ call_method call = POST
  /\ call_body call
     = Some (JObj [("to", JStr (to payload)); ("message", JStr (message payload))])
  /\ call_headers call !! "Authorization"
     = Some (FetchHttpClient.apiToken (MsGineClient.httpClient this))
  /\ call_headers call !! "Content-Type" = Some "application/json"
  /\ call_headers call !! "User-Agent" = Some "@msgine/sdk/1.0.0"
  /\ call_timeout call = FetchHttpClient.timeout (MsGineClient.httpClient this).
Proof.
  intros Hvalid Hmax Hurl Hin.
  unfold valid in Hvalid. unfold MsGineClient.sendSms in Hin.
  destruct (SendSmsSchema_safeParse payload) as [errors | data] eqn:Hparse;
    [discriminate | ].
  apply safeParse_valid in Hparse as (-> & _).
  change {| method := POST; path := "/messages/sms";
            body := Some (MsGineClient.payload_json payload);
            headers := None; queryParams := None |}
    with (sms_options payload) in Hin.
  pose proof (always_run _ _ fetchImpl n
                (request_runs (MsGineClient.httpClient this) (sms_options payload)
                   url Hmax Hurl)) as [Htrace _].
  apply retry_trace_calls in Htrace as [Hcalls _].
  rewrite (Hcalls call o Hin). simpl.
  repeat split; by simplify_map_eq.
Qed.

Lemma sendSms_sends_the_payload_witness :
  let platform := test_platform in
  let fetchImpl := scripted [aborted] (Resolves (ok_response JNull)) in
  let call := the_call (MsGineClient.httpClient test_client) (sms_options hello)
                "https://api.msgine.net/messages/sms" in
  valid hello
  /\ In (Fetched call (Resolves (ok_response JNull)))
        (snd (run fetchImpl 0 (MsGineClient.sendSms test_client hello)))
  /\ call_method call = POST
  /\ call_body call
     = Some (JObj [("to", JStr "+256701521269"); ("message", JStr "Hello")])
  /\ call_headers call !! "Authorization" = Some "test-token-123".
Proof.
  intros platform fetchImpl call.
  assert (Hvalid : valid hello) by (vm_compute; reflexivity).
  assert (Hin : In (Fetched call (Resolves (ok_response JNull)))
                   (snd (run fetchImpl 0 (MsGineClient.sendSms test_client hello)))).
  { vm_compute. right. right. left. reflexivity. }
  destruct (sendSms_sends_the_payload test_client hello
              "https://api.msgine.net/messages/sms" fetchImpl 0 call _
              Hvalid ltac:(vm_compute; discriminate) ltac:(vm_compute; reflexivity) Hin)
    as (_ & Hmethod & Hbody & Hauth & _).
  split; [exact Hvalid | ]. split; [exact Hin | ].
  split; [exact Hmethod | ]. split; [exact Hbody | exact Hauth].
Defined.

(** ** Edges of the retry loop *)

(** X10.  With a negative [maxRetries] the loop of [request] is never
    entered: the request makes no call and throws [lastError], which is
    still [undefined]. *)
Theorem request_with_negative_maxRetries {platform : Platform}
    (this : FetchHttpClient.t) (options : RequestOptions)
    (fetchImpl : Executor) (n : nat) :
  Required.maxRetries (FetchHttpClient.retryConfig this) < 0 ->
  FetchHttpClient.request this options = Rejected Undefined
  /\ run fetchImpl n (FetchHttpClient.request this options) = (Some (Err Undefined), []).
Proof.
  intros Hneg.
  assert (Heq : FetchHttpClient.request this options = Rejected Undefined).
  { unfold FetchHttpClient.request.
    destruct (Z.to_nat _); simpl; rewrite (proj2 (Z.leb_gt _ _)) by lia; reflexivity. }
  split; [exact Heq | ]. by rewrite Heq.
Qed.

Lemma request_with_negative_maxRetries_witness :
  let platform := test_platform in
  let this := {| FetchHttpClient.baseUrl := "https://api.msgine.net/api/v1";
                 FetchHttpClient.apiToken := "test-token";
                 FetchHttpClient.timeout := 30000;
                 FetchHttpClient.retryConfig := {|
                   Required.maxRetries := -1;
                   Required.initialDelay := 1000%float;
                   Required.maxDelay := 10000%float;
                   Required.backoffMultiplier := 2%float;
                   Required.retryableStatusCodes := [408] |} |} in
  Required.maxRetries (FetchHttpClient.retryConfig this) < 0
  /\ run (scripted [] (Resolves (ok_response JNull))) 0
         (FetchHttpClient.request this (sms_options hello))
     = (Some (Err Undefined), []).
Proof.
  intros platform this.
  assert (Hneg : Required.maxRetries (FetchHttpClient.retryConfig this) < 0)
    by (vm_compute; reflexivity).
  split; [exact Hneg | ].
  exact (proj2 (request_with_negative_maxRetries this (sms_options hello)
                  (scripted [] (Resolves (ok_response JNull))) 0 Hneg)).
Defined.

Lemma strip_leading_all_chars p (s : string) :
  URL.all_chars p s = true -> URL.all_chars p (URL.strip_leading s) = true.
Proof.
  induction s as [ | c s IH]; simpl; [done | ].
  intros [Hc Hs]%andb_prop.
  destruct (URL.c0_or_space c); [by apply IH | ]. simpl. by rewrite Hc, Hs.
Qed.

Lemma strip_trailing_all_chars p (s : string) :
  URL.all_chars p s = true -> URL.all_chars p (URL.strip_trailing s) = true.
Proof.
  induction s as [ | c s IH]; simpl; [done | ].
  intros [Hc Hs]%andb_prop. specialize (IH Hs).
  destruct (URL.strip_trailing s) as [ | c' kept].
  - destruct (URL.c0_or_space c); simpl; [done | by rewrite Hc].
  - change (URL.all_chars p (String c (String c' kept)))
      with (p c && URL.all_chars p (String c' kept)).
    by rewrite Hc, IH.
Qed.

Lemma remove_tab_newline_all_chars p (s : string) :
  URL.all_chars p s = true -> URL.all_chars p (URL.remove_tab_newline s) = true.
Proof.
  induction s as [ | c s IH]; simpl; [done | ].
  intros [Hc Hs]%andb_prop.
  destruct (URL.tab_or_newline c); [by apply IH | ]. simpl. by rewrite Hc, IH.
Qed.

(** The scheme state ends at a colon: without one it finds no scheme. *)
Lemma scheme_state_no_colon (s : string) : forall acc,
  no_colon s = true -> URL.scheme_state s acc = None.
Proof.
  induction s as [ | c s IH]; intros acc Hs; [done | ].
  unfold no_colon in Hs. simpl in Hs. apply andb_prop in Hs as [Hc Hs].
  apply negb_true_iff in Hc. simpl. rewrite Hc.
  match goal with |- (if ?b then _ else _) = _ => destruct b end;
    [by apply IH | done].
Qed.

(** [new URL(input, base)] fails on a base URL without a colon, whatever
    the input. *)
Lemma URL_new_no_colon (input base : string) :
  no_colon base = true -> URL.new input base = None.
Proof.
  intros Hbase. unfold URL.new, URL.parse_absolute, URL.scheme_start_state.
  assert (Hclean : no_colon (URL.preprocess base) = true).
  { unfold URL.preprocess.
    by apply remove_tab_newline_all_chars, strip_trailing_all_chars,
      strip_leading_all_chars. }
  destruct (URL.preprocess base) as [ | c rest]; [done | ].
  destruct (URL.is_alpha c); [ | done].
  by rewrite scheme_state_no_colon.
Qed.

(** X11.  A base URL without a colon has no scheme, so the [URL]
    constructor throws on it, whatever the path: the request throws that
    [TypeError] as it is, without calling the executor and without
    retrying. *)
Theorem request_with_invalid_url_makes_no_call {platform : Platform}
    (this : FetchHttpClient.t) (options : RequestOptions)
    (fetchImpl : Executor) (n : nat) :
  0 <= Required.maxRetries (FetchHttpClient.retryConfig this) ->
  no_colon (FetchHttpClient.baseUrl this) = true ->
  FetchHttpClient.buildUrl this (path options) (queryParams options) = None
  /\ run fetchImpl n (FetchHttpClient.request this options)
     = (Some (Err (AnError "TypeError" "Invalid URL")), []).
Proof.
  intros Hmax Hbase.
  assert (Hurl : FetchHttpClient.buildUrl this (path options) (queryParams options)
                 = None).
  { unfold FetchHttpClient.buildUrl. by rewrite URL_new_no_colon. }
  split; [exact Hurl | by apply request_without_url].
Qed.

Lemma request_with_invalid_url_makes_no_call_witness :
  let platform := test_platform in
  let this := {| FetchHttpClient.baseUrl := "api.msgine.net/api/v1";
                 FetchHttpClient.apiToken := "test-token";
                 FetchHttpClient.timeout := 30000;
                 FetchHttpClient.retryConfig := DEFAULT_RETRY_CONFIG |} in
  no_colon (FetchHttpClient.baseUrl this) = true
  /\ FetchHttpClient.buildUrl this "/messages/sms" None = None
  /\ run (scripted [] (Resolves (ok_response JNull))) 0
         (FetchHttpClient.request this (sms_options hello))
     = (Some (Err (AnError "TypeError" "Invalid URL")), []).
Proof.
  intros platform this.
  assert (Hbase : no_colon (FetchHttpClient.baseUrl this) = true) by reflexivity.
  split; [exact Hbase | ].
  apply (request_with_invalid_url_makes_no_call this (sms_options hello)).
  - vm_compute. discriminate.
  - exact Hbase.
Defined.

(** ** Timeouts *)

(** An iteration whose call is aborted: the timeout is retried after the
    delay of the attempt when 408 is retryable and attempts are left, and
    thrown otherwise. *)
Lemma run_request_loop_aborted {platform : Platform} fetchImpl n fuel this options lastError attempt url reason :
  attempt <= Required.maxRetries (FetchHttpClient.retryConfig this) ->
  FetchHttpClient.buildUrl this (path options) (queryParams options) = Some url ->
  fetchImpl n (the_call this options url) = Rejects reason ->
  instanceof_Error reason = true ->
  error_name reason = "AbortError" ->
  run fetchImpl n (FetchHttpClient.request_loop (S fuel) this options lastError attempt)
  = if existsb (Z.eqb 408)
         (Required.retryableStatusCodes (FetchHttpClient.retryConfig this))
       && (attempt <? Required.maxRetries (FetchHttpClient.retryConfig this))
    then
      (fst (run fetchImpl (S n)
              (FetchHttpClient.request_loop fuel this options (Some timeout_error)
                 (attempt + 1))),
       Fetched (the_call this options url) (Rejects reason)
       :: Slept (FetchHttpClient.delay this attempt)
       :: snd (run fetchImpl (S n)
                 (FetchHttpClient.request_loop fuel this options (Some timeout_error)
                    (attempt + 1))))
    else (Some (Err timeout_error),
          [Fetched (the_call this options url) (Rejects reason)]).
Proof.
  intros Hle Hurl Hfetch Herror Hname.
  unfold the_call in *. simpl.
  rewrite (proj2 (Z.leb_le _ _) Hle).
  unfold FetchHttpClient.executeRequest. rewrite Hurl. simpl.
  rewrite Hfetch. simpl. rewrite Herror, Hname. simpl.
  destruct (existsb _ _); simpl; [ | reflexivity].
  rewrite Z.geb_leb.
  destruct (Z.ltb_spec attempt (Required.maxRetries (FetchHttpClient.retryConfig this)))
    as [Hlt | Hge].
  - rewrite (proj2 (Z.leb_gt _ _)) by lia. simpl.
    by destruct (run fetchImpl (S n) _).
  - rewrite (proj2 (Z.leb_le _ _)) by lia. reflexivity.
Qed.

(** An iteration whose call is answered with a JSON success. *)
Lemma run_request_loop_answered {platform : Platform} fetchImpl n fuel this options lastError attempt url
      response ct v :
  attempt <= Required.maxRetries (FetchHttpClient.retryConfig this) ->
  FetchHttpClient.buildUrl this (path options) (queryParams options) = Some url ->
  fetchImpl n (the_call this options url) = Resolves response ->
  ok response = true ->
  content_type response = Some ct ->
  includes ct "application/json" = true ->
  json response = inr v ->
  run fetchImpl n (FetchHttpClient.request_loop (S fuel) this options lastError attempt)
  = (Some (Ok (FetchHttpClient.Return v)),
     [Fetched (the_call this options url) (Resolves response)]).
Proof.
  intros Hle Hurl Hfetch Hok Hct Hjson Hbody.
  unfold the_call in *. simpl.
  rewrite (proj2 (Z.leb_le _ _) Hle).
  unfold FetchHttpClient.executeRequest. rewrite Hurl. simpl.
  rewrite Hfetch. simpl.
  unfold FetchHttpClient.handleResponse. rewrite Hok, Hct, Hjson, Hbody.
  reflexivity.
Qed.

(** [k] timeouts in a row, with 408 retryable and attempts left, are
    [k] rounds of call and backoff before the loop goes on. *)
Lemma run_request_loop_timeouts {platform : Platform} fetchImpl this options url reason k :
  forall n fuel lastError attempt,
    FetchHttpClient.buildUrl this (path options) (queryParams options) = Some url ->
    In 408 (Required.retryableStatusCodes (FetchHttpClient.retryConfig this)) ->
    attempt + Z.of_nat k <= Required.maxRetries (FetchHttpClient.retryConfig this) ->
    (forall i, (i < k)%nat ->
               fetchImpl (n + i)%nat (the_call this options url) = Rejects reason) ->
    instanceof_Error reason = true ->
    error_name reason = "AbortError" ->
    exists lastError',
      run fetchImpl n (FetchHttpClient.request_loop (k + fuel) this options lastError attempt)
      = (fst (run fetchImpl (n + k)
                (FetchHttpClient.request_loop fuel this options lastError'
                   (attempt + Z.of_nat k))),
         failed_rounds this (the_call this options url) (Rejects reason) k attempt
         ++ snd (run fetchImpl (n + k)
                   (FetchHttpClient.request_loop fuel this options lastError'
                      (attempt + Z.of_nat k)))).
Proof.
  induction k as [ | k IH]; intros n fuel lastError attempt Hurl H408 Hle Hfetch Herror Hname.
  - exists lastError. rewrite Nat.add_0_r, Z.add_0_r. simpl.
    by destruct (run fetchImpl n _).
  - simpl Nat.add.
    rewrite (run_request_loop_aborted fetchImpl n (k + fuel) this options lastError
               attempt url reason) by (try done; try lia;
                                       rewrite <- (Nat.add_0_r n); apply Hfetch; lia).
    assert (Hretry : existsb (Z.eqb 408)
                       (Required.retryableStatusCodes (FetchHttpClient.retryConfig this))
                     = true).
    { apply existsb_exists. exists 408. split; [done | apply Z.eqb_refl]. }
    rewrite Hretry, (proj2 (Z.ltb_lt _ _)) by lia. simpl andb. cbv iota.
    destruct (IH (S n) fuel (Some timeout_error) (attempt + 1) Hurl H408)
      as (lastError' & Hrun); try done; try lia.
    { intros i Hi. replace (S n + i)%nat with (n + S i)%nat by lia.
      apply Hfetch. lia. }
    exists lastError'.
    replace (n + S k)%nat with (S n + k)%nat by lia.
    replace (attempt + Z.of_nat (S k)) with (attempt + 1 + Z.of_nat k) by lia.
    rewrite Hrun. reflexivity.
Qed.

Lemma failed_rounds_counts {platform : Platform} this call outcome k : forall attempt,
  network_calls (failed_rounds this call outcome k attempt) = k
  /\ sleeps (failed_rounds this call outcome k attempt)
     = List.map (fun i => FetchHttpClient.delay this (attempt + Z.of_nat i)) (seq 0 k).
Proof.
  induction k as [ | k IH]; intros attempt; simpl; [done | ].
  destruct (IH (attempt + 1)) as [Hcalls Hsleeps].
  split.
  - change (network_calls (Fetched call outcome
                           :: Slept (FetchHttpClient.delay this attempt)
                           :: failed_rounds this call outcome k (attempt + 1)))
      with (S (network_calls (failed_rounds this call outcome k (attempt + 1)))).
    by rewrite Hcalls.
  - rewrite Hsleeps, Z.add_0_r. f_equal.
    rewrite <- seq_shift, List.map_map.
    apply List.map_ext. intros i. f_equal. lia.
Qed.

Lemma run_request {platform : Platform} fetchImpl n this options :
  run fetchImpl n (FetchHttpClient.request this options)
  = (match fst (run fetchImpl n
                  (FetchHttpClient.request_loop
                     (Z.to_nat (Required.maxRetries (FetchHttpClient.retryConfig this) + 1))
                     this options None 0)) with
     | Some (Ok (FetchHttpClient.Return v)) => Some (Ok v)
     | Some (Ok (FetchHttpClient.LoopEnd lastError)) =>
         Some (Err (default Undefined lastError))
     | Some (Err e) => Some (Err e)
     | None => None
     end,
     snd (run fetchImpl n
            (FetchHttpClient.request_loop
               (Z.to_nat (Required.maxRetries (FetchHttpClient.retryConfig this) + 1))
               this options None 0))).
Proof.
  unfold FetchHttpClient.request.
  rewrite (run_bind_settled fetchImpl n _ _
             (fun c => match c with
                       | FetchHttpClient.Return response => Ok response
                       | FetchHttpClient.LoopEnd lastError =>
                           Err (default Undefined lastError)
                       end)) by (by intros [v | lastError]).
  by destruct (fst (run fetchImpl n _)) as [[[v | lastError] | e] | ].
Qed.

(** X12.  When 408 is retryable and the first [k <= maxRetries] calls
    time out, a request whose next call is answered with a JSON success
    returns that body after [k + 1] calls, having slept the delays of
    the attempts 0 to [k - 1] in between. *)
Theorem request_recovers_after_timeouts {platform : Platform}
    (this : FetchHttpClient.t) (options : RequestOptions) (url : string)
    (fetchImpl : Executor) (reason : Thrown) (k : nat)
    (response : Response) (ct : string) (v : JsonValue) :
  FetchHttpClient.buildUrl this (path options) (queryParams options) = Some url ->
  In 408 (Required.retryableStatusCodes (FetchHttpClient.retryConfig this)) ->
  Z.of_nat k <= Required.maxRetries (FetchHttpClient.retryConfig this) ->
  (forall i, (i < k)%nat -> fetchImpl i (the_call this options url) = Rejects reason) ->
  instanceof_Error reason = true ->
  error_name reason = "AbortError" ->
  fetchImpl k (the_call this options url) = Resolves response ->
  ok response = true ->
  content_type response = Some ct ->
  includes ct "application/json" = true ->
  json response = inr v ->
  run fetchImpl 0 (FetchHttpClient.request this options)
  = (Some (Ok v),
     failed_rounds this (the_call this options url) (Rejects reason) k 0
     ++ [Fetched (the_call this options url) (Resolves response)])
  /\ network_calls (snd (run fetchImpl 0 (FetchHttpClient.request this options))) = S k
  /\ sleeps (snd (run fetchImpl 0 (FetchHttpClient.request this options)))
     = List.map (fun i => FetchHttpClient.delay this (Z.of_nat i)) (seq 0 k).
Proof.
  intros Hurl H408 Hk Hfetch Herror Hname Hlast Hok Hct Hjson Hbody.
  assert (Hrun : run fetchImpl 0 (FetchHttpClient.request this options)
                 = (Some (Ok v),
                    failed_rounds this (the_call this options url) (Rejects reason) k 0
                    ++ [Fetched (the_call this options url) (Resolves response)])).
  { rewrite run_request.
    replace (Z.to_nat (Required.maxRetries (FetchHttpClient.retryConfig this) + 1))
      with (k + S (Z.to_nat (Required.maxRetries (FetchHttpClient.retryConfig this)) - k))%nat
      by lia.
    destruct (run_request_loop_timeouts fetchImpl this options url reason k 0
                (S (Z.to_nat (Required.maxRetries (FetchHttpClient.retryConfig this)) - k))
                None 0 Hurl H408) as (lastError' & ->); try done; try lia.
    rewrite (run_request_loop_answered fetchImpl (0 + k) _ this options lastError'
               (0 + Z.of_nat k) url response ct v); try done; lia. }
  rewrite Hrun. simpl snd.
  destruct (failed_rounds_counts this (the_call this options url) (Rejects reason) k 0)
    as [Hcalls Hsleeps].
  split; [done | ]. split.
  - rewrite network_calls_app, Hcalls. unfold network_calls at 1. simpl. lia.
  - rewrite sleeps_app, Hsleeps. simpl. by rewrite app_nil_r.
Qed.

Lemma request_recovers_after_timeouts_witness :
  let platform := test_platform in
  let this := MsGineClient.httpClient retry_client in
  let response := ok_response (delivery "msg_123" "+256701521269" "Hello") in
  let fetchImpl := scripted [aborted; aborted; Resolves response] network_failure in
  In 408 (Required.retryableStatusCodes (FetchHttpClient.retryConfig this))
  /\ network_calls (snd (run fetchImpl 0
                           (FetchHttpClient.request this (sms_options hello)))) = 3%nat
  /\ sleeps (snd (run fetchImpl 0 (FetchHttpClient.request this (sms_options hello))))
     = List.map (fun i => FetchHttpClient.delay this (Z.of_nat i)) (seq 0 2).
Proof.
  intros platform this response fetchImpl.
  assert (H408 : In 408 (Required.retryableStatusCodes (FetchHttpClient.retryConfig this)))
    by (left; reflexivity).
  split; [exact H408 | ].
  assert (Hurl : FetchHttpClient.buildUrl this (path (sms_options hello))
                   (queryParams (sms_options hello))
                 = Some "https://api.msgine.net/messages/sms")
    by (vm_compute; reflexivity).
  assert (Hk : Z.of_nat 2 <= Required.maxRetries (FetchHttpClient.retryConfig this))
    by (vm_compute; discriminate).
  assert (Hfetch : forall i, (i < 2)%nat ->
            fetchImpl i (the_call this (sms_options hello)
                           "https://api.msgine.net/messages/sms")
            = Rejects (AnError "AbortError" "The operation was aborted")).
  { intros [ | [ | i]] Hi; [reflexivity | reflexivity | lia]. }
  exact (proj2 (request_recovers_after_timeouts this (sms_options hello)
                  "https://api.msgine.net/messages/sms" fetchImpl
                  (AnError "AbortError" "The operation was aborted") 2
                  response "application/json"
                  (delivery "msg_123" "+256701521269" "Hello")
                  Hurl H408 Hk Hfetch eq_refl eq_refl eq_refl eq_refl eq_refl
                  eq_refl eq_refl)).
Defined.

(** X13.  When 408 is retryable and every call times out, a request
    gives up after [maxRetries + 1] calls, having slept the delays of
    the attempts 0 to [maxRetries - 1], and throws the timeout error
    (status 408, code [REQUEST_TIMEOUT]). *)
Theorem request_gives_up_after_maxRetries {platform : Platform}
    (this : FetchHttpClient.t) (options : RequestOptions) (url : string)
    (fetchImpl : Executor) (reason : Thrown) :
  0 <= Required.maxRetries (FetchHttpClient.retryConfig this) ->
  FetchHttpClient.buildUrl this (path options) (queryParams options) = Some url ->
  In 408 (Required.retryableStatusCodes (FetchHttpClient.retryConfig this)) ->
  (forall i, fetchImpl i (the_call this options url) = Rejects reason) ->
  instanceof_Error reason = true ->
  error_name reason = "AbortError" ->
  let rounds := Z.to_nat (Required.maxRetries (FetchHttpClient.retryConfig this)) in
  run fetchImpl 0 (FetchHttpClient.request this options)
  = (Some (Err timeout_error),
     failed_rounds this (the_call this options url) (Rejects reason) rounds 0
     ++ [Fetched (the_call this options url) (Rejects reason)])
  /\ network_calls (snd (run fetchImpl 0 (FetchHttpClient.request this options)))
     = S rounds
  /\ sleeps (snd (run fetchImpl 0 (FetchHttpClient.request this options)))
     = List.map (fun i => FetchHttpClient.delay this (Z.of_nat i)) (seq 0 rounds).
Proof.
  intros Hmax Hurl H408 Hfetch Herror Hname rounds.
  assert (Hrun : run fetchImpl 0 (FetchHttpClient.request this options)
                 = (Some (Err timeout_error),
                    failed_rounds this (the_call this options url) (Rejects reason) rounds 0
                    ++ [Fetched (the_call this options url) (Rejects reason)])).
  { rewrite run_request.
    replace (Z.to_nat (Required.maxRetries (FetchHttpClient.retryConfig this) + 1))
      with (rounds + 1)%nat by (unfold rounds; lia).
    destruct (run_request_loop_timeouts fetchImpl this options url reason rounds 0 1%nat
                None 0 Hurl H408) as (lastError' & ->);
      try done; try (unfold rounds; lia).
    rewrite (run_request_loop_aborted fetchImpl (0 + rounds) 0 this options lastError'
               (0 + Z.of_nat rounds) url reason); try done; try (unfold rounds; lia).
    rewrite (proj2 (Z.ltb_ge _ _)) by (unfold rounds; lia).
    rewrite andb_false_r. reflexivity. }
  rewrite Hrun. simpl snd.
  destruct (failed_rounds_counts this (the_call this options url) (Rejects reason) rounds 0)
    as [Hcalls Hsleeps].
  split; [done | ]. split.
  - rewrite network_calls_app, Hcalls. unfold network_calls at 1. simpl. lia.
  - rewrite sleeps_app, Hsleeps. simpl. by rewrite app_nil_r.
Qed.

Lemma request_gives_up_after_maxRetries_witness :
  let platform := test_platform in
  let this := MsGineClient.httpClient retry_client in
  let fetchImpl := scripted [] aborted in
  0 <= Required.maxRetries (FetchHttpClient.retryConfig this)
  /\ fst (run fetchImpl 0 (FetchHttpClient.request this (sms_options hello)))
     = Some (Err timeout_error)
  /\ network_calls (snd (run fetchImpl 0
                           (FetchHttpClient.request this (sms_options hello)))) = 3%nat.
Proof.
  intros platform this fetchImpl.
  assert (Hmax : 0 <= Required.maxRetries (FetchHttpClient.retryConfig this))
    by (vm_compute; discriminate).
  split; [exact Hmax | ].
  assert (Hurl : FetchHttpClient.buildUrl this (path (sms_options hello))
                   (queryParams (sms_options hello))
                 = Some "https://api.msgine.net/messages/sms")
    by (vm_compute; reflexivity).
  assert (H408 : In 408 (Required.retryableStatusCodes (FetchHttpClient.retryConfig this)))
    by (left; reflexivity).
  assert (Hfetch : forall i,
            fetchImpl i (the_call this (sms_options hello)
                           "https://api.msgine.net/messages/sms")
            = Rejects (AnError "AbortError" "The operation was aborted")).
  { intros [ | i]; reflexivity. }
  destruct (request_gives_up_after_maxRetries this (sms_options hello)
              "https://api.msgine.net/messages/sms" fetchImpl
              (AnError "AbortError" "The operation was aborted")
              Hmax Hurl H408 Hfetch eq_refl eq_refl)
    as (Hrun & Hcalls & _).
  split; [by rewrite Hrun | exact Hcalls].
Defined.

(** X14.  A timeout is thrown at once, after a single call and without
    any sleep, when 408 is not among the retryable status codes or when
    [maxRetries] is 0. *)
Theorem timeout_without_retry {platform : Platform}
    (this : FetchHttpClient.t) (options : RequestOptions) (url : string)
    (fetchImpl : Executor) (reason : Thrown) :
  ~ In 408 (Required.retryableStatusCodes (FetchHttpClient.retryConfig this))
  /\ 0 <= Required.maxRetries (FetchHttpClient.retryConfig this)
  \/ Required.maxRetries (FetchHttpClient.retryConfig this) = 0 ->
  FetchHttpClient.buildUrl this (path options) (queryParams options) = Some url ->
  fetchImpl 0%nat (the_call this options url) = Rejects reason ->
  instanceof_Error reason = true ->
  error_name reason = "AbortError" ->
  run fetchImpl 0 (FetchHttpClient.request this options)
  = (Some (Err timeout_error),
     [Fetched (the_call this options url) (Rejects reason)]).
Proof.
  intros Hpolicy Hurl Hfetch Herror Hname.
  rewrite run_request.
  replace (Z.to_nat (Required.maxRetries (FetchHttpClient.retryConfig this) + 1))
    with (S (Z.to_nat (Required.maxRetries (FetchHttpClient.retryConfig this))))
    by lia.
  rewrite (run_request_loop_aborted fetchImpl 0 _ this options None 0 url reason);
    try done; try lia.
  destruct Hpolicy as [[H408 _] | Hzero].
  - assert (Hnot : existsb (Z.eqb 408)
                     (Required.retryableStatusCodes (FetchHttpClient.retryConfig this))
                   = false).
    { apply not_true_is_false. intros Hin. apply H408.
      apply existsb_exists in Hin as (c & Hc & Heq).
      apply Z.eqb_eq in Heq. by subst. }
    by rewrite Hnot.
  - rewrite Hzero. simpl. rewrite andb_false_r. reflexivity.
Qed.

Lemma timeout_without_retry_witness :
  let platform := test_platform in
  let this := {| FetchHttpClient.baseUrl := "https://api.msgine.net/api/v1";
                 FetchHttpClient.apiToken := "test-token";
                 FetchHttpClient.timeout := 50;
                 FetchHttpClient.retryConfig := {|
                   Required.maxRetries := 0;
                   Required.initialDelay := 1000%float;
                   Required.maxDelay := 10000%float;
                   Required.backoffMultiplier := 2%float;
                   Required.retryableStatusCodes := [408; 429; 500; 502; 503; 504] |} |} in
  Required.maxRetries (FetchHttpClient.retryConfig this) = 0
  /\ run (scripted [] aborted) 0 (FetchHttpClient.request this (sms_options hello))
     = (Some (Err timeout_error),
        [Fetched (the_call this (sms_options hello) "https://api.msgine.net/messages/sms")
                 aborted]).
Proof.
  intros platform this.
  split; [reflexivity | ].
  apply (timeout_without_retry this (sms_options hello)
           "https://api.msgine.net/messages/sms" (scripted [] aborted)
           (AnError "AbortError" "The operation was aborted")).
  - right. reflexivity.
  - vm_compute. reflexivity.
  - reflexivity.
  - reflexivity.
  - reflexivity.
Defined.

(** X15.  What the executor throws that is no [Error] reaches the
    caller unchanged, after one call and without retry. *)
Theorem request_rethrows_what_is_no_error {platform : Platform}
    (this : FetchHttpClient.t) (options : RequestOptions) (url : string)
    (fetchImpl : Executor) (n : nat) (reason : Thrown) :
  0 <= Required.maxRetries (FetchHttpClient.retryConfig this) ->
  FetchHttpClient.buildUrl this (path options) (queryParams options) = Some url ->
  fetchImpl n (the_call this options url) = Rejects reason ->
  instanceof_Error reason = false ->
  run fetchImpl n (FetchHttpClient.request this options)
  = (Some (Err reason), [Fetched (the_call this options url) (Rejects reason)]).
Proof.
  intros Hmax Hurl Hfetch Herror.
  rewrite run_request.
  replace (Z.to_nat (Required.maxRetries (FetchHttpClient.retryConfig this) + 1))
    with (S (Z.to_nat (Required.maxRetries (FetchHttpClient.retryConfig this))))
    by lia.
  unfold the_call in *. simpl FetchHttpClient.request_loop.
  rewrite (proj2 (Z.leb_le _ _) Hmax).
  unfold FetchHttpClient.executeRequest. rewrite Hurl. simpl.
  rewrite Hfetch. simpl. rewrite Herror. simpl.
  destruct reason; simpl in Herror; try discriminate; reflexivity.
Qed.

Lemma request_rethrows_what_is_no_error_witness :
  let platform := test_platform in
  let this := MsGineClient.httpClient test_client in
  let fetchImpl := scripted [Rejects (NotAnError (JStr "offline"))] network_failure in
  instanceof_Error (NotAnError (JStr "offline")) = false
  /\ run fetchImpl 0 (FetchHttpClient.request this (sms_options hello))
     = (Some (Err (NotAnError (JStr "offline"))),
        [Fetched (the_call this (sms_options hello) "https://api.msgine.net/messages/sms")
                 (Rejects (NotAnError (JStr "offline")))]).
Proof.
  intros platform this fetchImpl.
  split; [reflexivity | ].
  apply (request_rethrows_what_is_no_error this (sms_options hello)
           "https://api.msgine.net/messages/sms" fetchImpl 0
           (NotAnError (JStr "offline"))).
  - vm_compute. discriminate.
  - vm_compute. reflexivity.
  - reflexivity.
  - reflexivity.
Defined.

(** ** More on batches *)

Lemma resume_nothing {A} fetchImpl (schedule : list nat) (w : World) :
  fold_left (resume (A:=A) fetchImpl) schedule
    {| tasks := []; rejection := None; world := w |}
  = {| tasks := []; rejection := None; world := w |}.
Proof. induction schedule as [ | i schedule IH]; simpl; done. Qed.

(** X16.  An empty batch returns the empty list of results without
    calling the executor, whatever the environment does. *)
Theorem sendSmsBatch_of_nothing {platform : Platform}
    (fetchImpl : Executor) (this : MsGineClient.t) (schedule : list nat) :
  MsGineClient.sendSmsBatch fetchImpl this [] schedule = (Some (Ok []), []).
Proof.
  unfold MsGineClient.sendSmsBatch, Promise_all, Promise_all_state. simpl.
  by rewrite resume_nothing.
Qed.



Lemma sendSms_begins_with_its_call {platform : Platform} this payload url :
  valid payload ->
  0 <= Required.maxRetries (FetchHttpClient.retryConfig (MsGineClient.httpClient this)) ->
  FetchHttpClient.buildUrl (MsGineClient.httpClient this) "/messages/sms" None = Some url ->
  exists k,
    MsGineClient.sendSms this payload
    = AwaitFetch (the_call (MsGineClient.httpClient this) (sms_options payload) url) k.
Proof.
  intros Hvalid Hmax Hurl.
  unfold valid in Hvalid. unfold MsGineClient.sendSms.
  destruct (SendSmsSchema_safeParse payload) as [errors | data] eqn:Hparse;
    [discriminate | ].
  apply safeParse_valid in Hparse as (-> & _).
  change {| method := POST; path := "/messages/sms";
            body := Some (MsGineClient.payload_json payload);
            headers := None; queryParams := None |}
    with (sms_options payload).
  unfold FetchHttpClient.request.
  replace (Z.to_nat (Required.maxRetries
             (FetchHttpClient.retryConfig (MsGineClient.httpClient this)) + 1))
    with (S (Z.to_nat (Required.maxRetries
               (FetchHttpClient.retryConfig (MsGineClient.httpClient this)))))
    by lia.
  destruct (request_loop_iteration
              (Z.to_nat (Required.maxRetries
                 (FetchHttpClient.retryConfig (MsGineClient.httpClient this))))
              (MsGineClient.httpClient this) (sms_options payload) None 0 url Hmax Hurl)
    as (k & -> & _).
  simpl. eauto.
Qed.

Lemma resume_trace_grows {A} fetchImpl (schedule : list nat) : forall st : AllState A,
  exists later,
    trace (world (fold_left (resume fetchImpl) schedule st)) = trace (world st) ++ later.
Proof.
  induction schedule as [ | i schedule IH]; intros st; simpl.
  - exists []. by rewrite app_nil_r.
  - destruct (IH (resume fetchImpl st i)) as (later & ->).
    unfold resume.
    destruct (tasks st !! i) as [[o | k | ] | ]; try by exists later.
    destruct k as [a | e | call k | ms k | ]; simpl; try by exists later.
    + eexists. by rewrite <- app_assoc.
    + eexists. by rewrite <- app_assoc.
Qed.

Lemma spawn_sends_calls {platform : Platform} fetchImpl this url payloads : forall st : AllState JsonValue,
  Forall valid payloads ->
  0 <= Required.maxRetries (FetchHttpClient.retryConfig (MsGineClient.httpClient this)) ->
  FetchHttpClient.buildUrl (MsGineClient.httpClient this) "/messages/sms" None = Some url ->
  trace (world (fold_left (spawn fetchImpl)
                  (List.map (MsGineClient.sendSms this) payloads) st))
  = trace (world st)
    ++ imap (fun i payload =>
               let call := the_call (MsGineClient.httpClient this)
                             (sms_options payload) url in
               Fetched call (fetchImpl (calls (world st) + i)%nat call))
            payloads.
Proof.
  induction payloads as [ | p ps IH]; intros st Hvalid Hmax Hurl; simpl.
  - by rewrite app_nil_r.
  - inversion Hvalid as [ | ? ? Hp Hps]; subst.
    destruct (sendSms_begins_with_its_call this p url Hp Hmax Hurl) as (k & Hk).
    rewrite IH by done.
    unfold spawn at 1 2. rewrite Hk. simpl.
    rewrite <- app_assoc. simpl. rewrite Nat.add_0_r. do 2 f_equal.
    apply imap_ext. intros i payload _. simpl.
    by replace (calls (world st) + S i)%nat with (S (calls (world st) + i)) by lia.
Qed.






(** X18.  For valid payloads, [sendSmsBatch] first makes one call per
    payload, in input order and each with its own payload as body, before
    any answer is handled; whatever happens later only adds events. *)
Theorem sendSmsBatch_dispatches_in_order {platform : Platform}
    (fetchImpl : Executor) (this : MsGineClient.t) (url : string)
    (payloads : list SendSmsPayload) (schedule : list nat) :
  Forall valid payloads ->
  0 <= Required.maxRetries (FetchHttpClient.retryConfig (MsGineClient.httpClient this)) ->
  FetchHttpClient.buildUrl (MsGineClient.httpClient this) "/messages/sms" None = Some url ->
  exists later,
    snd (MsGineClient.sendSmsBatch fetchImpl this payloads schedule)
    = imap (fun i payload =>
              let call := the_call (MsGineClient.httpClient this)
                            (sms_options payload) url in
              Fetched call (fetchImpl i call))
           payloads
      ++ later.
Proof.
  intros Hvalid Hmax Hurl.
  unfold MsGineClient.sendSmsBatch.
  rewrite (find_invalid_none payloads Hvalid).
  unfold Promise_all, Promise_all_state. simpl.
  destruct (resume_trace_grows fetchImpl schedule
              (fold_left (spawn fetchImpl)
                 (List.map (MsGineClient.sendSms this) payloads)
                 {| tasks := []; rejection := None;
                    world := {| calls := 0; trace := [] |} |}))
    as (later & ->).
  exists later. f_equal.
  by rewrite (spawn_sends_calls fetchImpl this url payloads _ Hvalid Hmax Hurl).
Qed.

Lemma sendSmsBatch_dispatches_in_order_witness :
  let platform := test_platform in
  let fetchImpl := scripted [] aborted in
  let http := MsGineClient.httpClient test_client in
  Forall valid [hello1; hello2]
  /\ exists later,
       snd (MsGineClient.sendSmsBatch fetchImpl test_client [hello1; hello2] [1; 0]%nat)
       = [Fetched (the_call http (sms_options hello1) "https://api.msgine.net/messages/sms")
                  aborted;
          Fetched (the_call http (sms_options hello2) "https://api.msgine.net/messages/sms")
                  aborted]
         ++ later.
Proof.
  intros platform fetchImpl http.
  assert (Hvalid : Forall valid [hello1; hello2])
    by (repeat constructor; vm_compute; reflexivity).
  split; [exact Hvalid | ].
  exact (sendSmsBatch_dispatches_in_order fetchImpl test_client
           "https://api.msgine.net/messages/sms" [hello1; hello2] [1; 0]%nat
           Hvalid ltac:(vm_compute; discriminate) ltac:(vm_compute; reflexivity)).
Defined.

(** ** URLs of plain paths *)

Lemma append_cons (x : ascii) (a b : string) :
  String x a +:+ b = String x (a +:+ b).
Proof. reflexivity. Qed.

Lemma append_assoc (a b c : string) : (a +:+ b) +:+ c = a +:+ (b +:+ c).
Proof.
  induction a as [ | x a IH]; [reflexivity | ].
  rewrite !append_cons. by rewrite IH.
Qed.

Lemma append_nil_r (a : string) : a +:+ EmptyString = a.
Proof.
  induction a as [ | x a IH]; [reflexivity | ].
  rewrite append_cons. by rewrite IH.
Qed.

Lemma all_chars_append p (a b : string) :
  URL.all_chars p (a +:+ b) = URL.all_chars p a && URL.all_chars p b.
Proof.
  induction a as [ | x a IH]; [reflexivity | ].
  rewrite append_cons. simpl. by rewrite IH, andb_assoc.
Qed.

(** What the parser does with a plain character: nothing. *)
Lemma plain_char_facts (c : ascii) :
  plain_char c = true ->
  URL.is_slash c = false
  /\ Ascii.eqb c "?" = false
  /\ Ascii.eqb c "#" = false
  /\ Ascii.eqb c ":" = false
  /\ URL.percent_encode URL.path_set c = String c EmptyString
  /\ Ascii.eqb (URL.lower c) "." = false
  /\ Ascii.eqb (URL.lower c) "%" = false
  /\ URL.c0_or_space c = false
  /\ URL.tab_or_newline c = false.
Proof.
  destruct c as [b0 b1 b2 b3 b4 b5 b6 b7].
  destruct b0, b1, b2, b3, b4, b5, b6, b7; vm_compute;
    intros H; try discriminate H; repeat split.
Qed.

Lemma slash_facts (c : ascii) :
  Ascii.eqb c "/" = true ->
  c = "/"%char /\ URL.c0_or_space c = false /\ URL.tab_or_newline c = false
  /\ Ascii.eqb c ":" = false.
Proof. intros Hc. apply Ascii.eqb_eq in Hc. subst. by repeat split. Qed.

Lemma strip_trailing_plain (s : string) :
  URL.all_chars (fun c => negb (URL.c0_or_space c)) s = true ->
  URL.strip_trailing s = s.
Proof.
  induction s as [ | c s IH]; simpl; [done | ].
  intros [Hc Hs]%andb_prop. rewrite (IH Hs).
  destruct s; [ | done].
  by rewrite (proj1 (negb_true_iff _) Hc).
Qed.

Lemma remove_tab_newline_plain (s : string) :
  URL.all_chars (fun c => negb (URL.tab_or_newline c)) s = true ->
  URL.remove_tab_newline s = s.
Proof.
  induction s as [ | c s IH]; simpl; [done | ].
  intros [Hc Hs]%andb_prop.
  by rewrite (proj1 (negb_true_iff _) Hc), (IH Hs).
Qed.

Lemma all_chars_impl (p q : ascii -> bool) (s : string) :
  (forall c, p c = true -> q c = true) ->
  URL.all_chars p s = true -> URL.all_chars q s = true.
Proof.
  intros Hpq. induction s as [ | c s IH]; simpl; [done | ].
  intros [Hc Hs]%andb_prop. by rewrite (Hpq c Hc), (IH Hs).
Qed.

Lemma plain_or_slash_facts (c : ascii) :
  plain_char c || Ascii.eqb c "/" = true ->
  URL.c0_or_space c = false /\ URL.tab_or_newline c = false
  /\ Ascii.eqb c ":" = false.
Proof.
  intros [Hc | Hc]%orb_prop.
  - destruct (plain_char_facts c Hc) as (_ & _ & _ & ? & _ & _ & _ & ? & ?). done.
  - destruct (slash_facts c Hc) as (_ & ? & ? & ?). done.
Qed.

(** Preprocessing leaves a plain path as it is. *)
Lemma preprocess_plain (s : string) :
  plain_path s = true -> URL.preprocess s = s.
Proof.
  intros Hs. unfold URL.preprocess.
  assert (Hlead : URL.strip_leading s = s).
  { destruct s as [ | c s]; simpl in *; [done | ].
    apply andb_prop in Hs as [Hc _].
    by rewrite (proj1 (plain_or_slash_facts c Hc)). }
  rewrite Hlead, strip_trailing_plain, remove_tab_newline_plain; [done | | ].
  - eapply all_chars_impl; [ | exact Hs].
    intros c Hc. destruct (plain_or_slash_facts c Hc) as (_ & -> & _). done.
  - eapply all_chars_impl; [ | exact Hs].
    intros c Hc. destruct (plain_or_slash_facts c Hc) as (-> & _). done.
Qed.

(** A plain path has no scheme. *)
Lemma scheme_state_plain (s : string) : forall acc,
  plain_path s = true -> URL.scheme_state s acc = None.
Proof.
  induction s as [ | c s IH]; intros acc Hs; [done | ].
  change (plain_path (String c s))
    with ((plain_char c || Ascii.eqb c "/") && plain_path s) in Hs.
  apply andb_prop in Hs as [Hc Hs].
  destruct (plain_or_slash_facts c Hc) as (_ & _ & Hcolon).
  simpl. rewrite Hcolon.
  match goal with |- (if ?b then _ else _) = _ => destruct b end;
    [by apply IH | done].
Qed.

Lemma scheme_start_state_plain (s : string) :
  plain_path s = true -> URL.scheme_start_state s = None.
Proof.
  intros Hs. unfold URL.scheme_start_state.
  destruct s as [ | c s]; [done | ].
  destruct (URL.is_alpha c); [by apply scheme_state_plain | done].
Qed.

(** A buffer of plain characters is no dot segment. *)
Lemma plain_buffer_is_no_dot (buffer : string) :
  URL.all_chars plain_char buffer = true ->
  URL.single_dot buffer = false /\ URL.double_dot buffer = false.
Proof.
  unfold URL.single_dot, URL.double_dot.
  destruct buffer as [ | c s]; simpl; [done | ].
  intros [Hc _]%andb_prop.
  destruct (plain_char_facts c Hc) as (_ & _ & _ & _ & _ & Hdot & Hpercent & _).
  by rewrite Hdot, Hpercent.
Qed.

Lemma end_segment_plain (buffer : string) segs slash :
  URL.all_chars plain_char buffer = true ->
  URL.end_segment buffer segs slash = segs ++ [buffer].
Proof.
  intros Hbuffer. unfold URL.end_segment.
  by destruct (plain_buffer_is_no_dot buffer Hbuffer) as [-> ->].
Qed.

Lemma join_segments_snoc segs seg :
  join_segments (segs ++ [seg]) = join_segments segs +:+ "/" +:+ seg.
Proof. unfold join_segments. by rewrite fold_left_app. Qed.

(** The path state splits a plain path at its slashes and finds neither
    query nor fragment: joined again, the segments are the path. *)
Lemma path_state_plain (s : string) : forall buffer segs,
  plain_path s = true ->
  URL.all_chars plain_char buffer = true ->
  exists segs',
    URL.path_state s buffer segs = (segs', None, None)
    /\ join_segments segs' = join_segments segs +:+ "/" +:+ buffer +:+ s.
Proof.
  induction s as [ | c s IH]; intros buffer segs Hs Hbuffer.
  - exists (segs ++ [buffer]). simpl. rewrite end_segment_plain by done.
    split; [done | ]. by rewrite join_segments_snoc, append_nil_r.
  - change (plain_path (String c s))
      with ((plain_char c || Ascii.eqb c "/") && plain_path s) in Hs.
    apply andb_prop in Hs as [Hc Hs].
    apply orb_prop in Hc as [Hc | Hc]; simpl.
    + destruct (plain_char_facts c Hc) as (-> & -> & -> & _ & -> & _).
      destruct (IH (buffer +:+ String c EmptyString) segs Hs) as (segs' & -> & Hjoin).
      { rewrite all_chars_append. simpl. by rewrite Hbuffer, Hc. }
      exists segs'. split; [done | ].
      rewrite Hjoin, append_assoc. reflexivity.
    + destruct (slash_facts c Hc) as (-> & _). simpl.
      rewrite end_segment_plain by done.
      destruct (IH EmptyString (segs ++ [buffer]) Hs eq_refl) as (segs' & -> & Hjoin).
      exists segs'. split; [done | ].
      rewrite Hjoin, join_segments_snoc. simpl.
      by rewrite !append_assoc.
Qed.

Lemma plain_path_cons (c : ascii) (s : string) :
  plain_path (String c s) = (plain_char c || Ascii.eqb c "/") && plain_path s.
Proof. reflexivity. Qed.

Lemma toString_parts (b : URL.t) segs q params :
  URL.toString {| URL.url := {| URL.scheme := URL.scheme b; URL.host := URL.host b;
                                URL.port := URL.port b; URL.segments := segs;
                                URL.query := q; URL.fragment := None |};
                  URL.searchParams := params |}
  = origin b +:+ join_segments segs
    +:+ match q with Some q => "?" +:+ q | None => EmptyString end.
Proof.
  unfold URL.toString, origin, URL.pathname, join_segments. simpl.
  rewrite !append_assoc, append_nil_r. reflexivity.
Qed.

(** [new URL(path, base)] for a path that begins with one slash: the
    origin of the base with the path as its whole path. *)
Lemma URL_new_rooted (b : URL.t) (path base : string) :
  URL.parse_absolute (URL.preprocess base) = Some b ->
  rooted_path path = true ->
  exists segs,
    URL.new path base
    = Some {| URL.url := {| URL.scheme := URL.scheme b; URL.host := URL.host b;
                            URL.port := URL.port b; URL.segments := segs;
                            URL.query := None; URL.fragment := None |};
              URL.searchParams := [] |}
    /\ join_segments segs = path.
Proof.
  intros Hbase Hpath. unfold URL.new. rewrite Hbase. simpl.
  destruct path as [ | c rest]; [discriminate | ].
  unfold rooted_path in Hpath.
  apply andb_prop in Hpath as [[Hc Hrest]%andb_prop Hsingle].
  apply Ascii.eqb_eq in Hc. subst c.
  rewrite preprocess_plain by (by rewrite plain_path_cons, Hrest).
  unfold URL.parse. simpl URL.scheme_start_state. cbv iota.
  unfold URL.relative_state. simpl URL.is_slash. cbv iota.
  destruct (path_state_plain rest EmptyString [] Hrest eq_refl) as (segs & Hstate & Hjoin).
  exists segs. split; [ | by rewrite Hjoin].
  assert (Hslash : URL.relative_slash_state rest b
                   = Some (URL.with_path b (URL.path_state rest EmptyString []))).
  { unfold URL.relative_slash_state.
    destruct rest as [ | c' rest']; [done | ].
    change (plain_path (String c' rest'))
      with ((plain_char c' || Ascii.eqb c' "/") && plain_path rest') in Hrest.
    apply andb_prop in Hrest as [Hc' _].
    destruct (Ascii.eqb_spec c' "/") as [-> | Hne];
      [destruct rest'; vm_compute in Hsingle; discriminate | ].
    rewrite orb_false_r in Hc'.
    by destruct (plain_char_facts c' Hc') as (-> & _). }
  rewrite Hslash, Hstate. reflexivity.
Qed.

(** X19.  For a request path that begins with one slash, [buildUrl]
    returns the origin of the base URL followed by the path: whatever
    path, query or fragment the base URL has is dropped. *)
Theorem buildUrl_of_rooted_path
    (this : FetchHttpClient.t) (b : URL.t) (path : string) :
  URL.parse_absolute (URL.preprocess (FetchHttpClient.baseUrl this)) = Some b ->
  rooted_path path = true ->
  FetchHttpClient.buildUrl this path None = Some (origin b +:+ path).
Proof.
  intros Hbase Hpath. unfold FetchHttpClient.buildUrl.
  destruct (URL_new_rooted b path _ Hbase Hpath) as (segs & -> & Hjoin).
  by rewrite toString_parts, Hjoin, append_nil_r.
Qed.

Lemma buildUrl_of_rooted_path_witness :
  let this := MsGineClient.httpClient custom_client in
  let b := {| URL.scheme := "https"; URL.host := "custom.api.com"; URL.port := None;
              URL.segments := ["v2"]; URL.query := None; URL.fragment := None |} in
  URL.parse_absolute (URL.preprocess (FetchHttpClient.baseUrl this)) = Some b
  /\ FetchHttpClient.buildUrl this "/messages/sms" None
     = Some (origin b +:+ "/messages/sms").
Proof.
  intros this b.
  assert (Hbase : URL.parse_absolute (URL.preprocess (FetchHttpClient.baseUrl this))
                  = Some b) by (vm_compute; reflexivity).
  split; [exact Hbase | ].
  exact (buildUrl_of_rooted_path this b "/messages/sms" Hbase eq_refl).
Defined.

(** X20.  For a request path that begins with a plain character,
    [buildUrl] replaces the last segment of the base URL's path by the
    request path, and drops the base URL's query and fragment: only a
    base URL that ends with a slash is extended by the path. *)
Theorem buildUrl_of_unrooted_path
    (this : FetchHttpClient.t) (b : URL.t) (path : string) :
  URL.parse_absolute (URL.preprocess (FetchHttpClient.baseUrl this)) = Some b ->
  unrooted_path path = true ->
  FetchHttpClient.buildUrl this path None
  = Some (origin b +:+ join_segments (removelast (URL.segments b)) +:+ "/" +:+ path).
Proof.
  intros Hbase Hpath. unfold FetchHttpClient.buildUrl, URL.new.
  rewrite Hbase. simpl.
  destruct path as [ | c rest]; [discriminate | ].
  unfold unrooted_path in Hpath. apply andb_prop in Hpath as [Hc Hrest].
  assert (Hplain : plain_path (String c rest) = true)
    by (by rewrite plain_path_cons, Hc, Hrest).
  rewrite preprocess_plain by done.
  unfold URL.parse. rewrite scheme_start_state_plain by done.
  unfold URL.relative_state.
  destruct (plain_char_facts c Hc) as (-> & -> & -> & _).
  destruct (path_state_plain (String c rest) EmptyString
              (URL.shorten (URL.segments b)) Hplain eq_refl)
    as (segs & -> & Hjoin).
  simpl. rewrite toString_parts, Hjoin, append_nil_r. reflexivity.
Qed.

Lemma buildUrl_of_unrooted_path_witness :
  let this := {| FetchHttpClient.baseUrl := "https://api.msgine.net/api/v1/";
                 FetchHttpClient.apiToken := "test-token";
                 FetchHttpClient.timeout := 30000;
                 FetchHttpClient.retryConfig := DEFAULT_RETRY_CONFIG |} in
  let b := {| URL.scheme := "https"; URL.host := "api.msgine.net"; URL.port := None;
              URL.segments := ["api"; "v1"; EmptyString];
              URL.query := None; URL.fragment := None |} in
  URL.parse_absolute (URL.preprocess (FetchHttpClient.baseUrl this)) = Some b
  /\ FetchHttpClient.buildUrl this "messages/sms" None
     = Some (origin b +:+ join_segments (removelast (URL.segments b))
             +:+ "/" +:+ "messages/sms")
  /\ origin b +:+ join_segments (removelast (URL.segments b)) +:+ "/" +:+ "messages/sms"
     = "https://api.msgine.net/api/v1/messages/sms".
Proof.
  intros this b.
  assert (Hbase : URL.parse_absolute (URL.preprocess (FetchHttpClient.baseUrl this))
                  = Some b) by (vm_compute; reflexivity).
  split; [exact Hbase | ].
  split; [ | vm_compute; reflexivity].
  exact (buildUrl_of_unrooted_path this b "messages/sms" Hbase eq_refl).
Defined.

(** ** Query parameters *)

Lemma length_append (a b : string) :
  String.length (a +:+ b) = (String.length a + String.length b)%nat.
Proof.
  induction a as [ | x a IH]; [reflexivity | ].
  rewrite append_cons. simpl. by rewrite IH.
Qed.

Lemma join_with_length sep (parts : list string) : forall acc,
  (String.length acc
   <= String.length (fold_left (fun acc q => acc +:+ sep +:+ q) parts acc))%nat.
Proof.
  induction parts as [ | p parts IH]; intros acc; simpl; [lia | ].
  etrans; [ | apply IH]. rewrite length_append. lia.
Qed.

Lemma serialize_not_empty pair pairs :
  String.eqb (URL.serialize_urlencoded (pair :: pairs)) EmptyString = false.
Proof.
  apply String.eqb_neq. intros Hempty.
  apply (f_equal String.length) in Hempty.
  unfold URL.serialize_urlencoded, URL.join_with in Hempty. simpl in Hempty.
  pose proof (join_with_length "&"
                (List.map (fun nv => URL.encode_component (fst nv) +:+ "="
                                     +:+ URL.encode_component (snd nv)) pairs)
                (URL.encode_component (fst pair) +:+ "="
                 +:+ URL.encode_component (snd pair))) as Hlen.
  rewrite Hempty in Hlen. rewrite !length_append in Hlen. simpl in Hlen. lia.
Qed.

(** Appending entries one by one leaves a URL whose query is the
    serialization of all its parameters. *)
Lemma searchParams_append_all (entries : list (string * QueryValue)) : forall o,
  fold_left (fun u kv => URL.searchParams_append u (fst kv) (String_of (snd kv)))
            entries o
  = match entries with
    | [] => o
    | _ :: _ =>
        let params := URL.searchParams o
                      ++ List.map (fun kv => (fst kv, String_of (snd kv))) entries in
        let q := URL.serialize_urlencoded params in
        {| URL.url := {| URL.scheme := URL.scheme (URL.url o);
                         URL.host := URL.host (URL.url o);
                         URL.port := URL.port (URL.url o);
                         URL.segments := URL.segments (URL.url o);
                         URL.query := if String.eqb q EmptyString then None else Some q;
                         URL.fragment := URL.fragment (URL.url o) |};
           URL.searchParams := params |}
    end.
Proof.
  induction entries as [ | e entries IH]; intros o; [done | ].
  simpl fold_left. rewrite IH.
  destruct entries as [ | e' entries]; [done | ].
  unfold URL.searchParams_append. simpl.
  by rewrite <- !app_assoc.
Qed.

(** X21.  With query parameters, [buildUrl] appends to the URL of a
    rooted path a [?] and the parameters, in the order of the entries,
    as [name=value] pairs joined by [&], names and values
    form-urlencoded; an empty set of parameters adds nothing. *)
Theorem buildUrl_appends_the_query
    (this : FetchHttpClient.t) (b : URL.t) (path : string)
    (entries : list (string * QueryValue)) :
  URL.parse_absolute (URL.preprocess (FetchHttpClient.baseUrl this)) = Some b ->
  rooted_path path = true ->
  FetchHttpClient.buildUrl this path (Some entries)
  = Some (origin b +:+ path
          +:+ match entries with
              | [] => EmptyString
              | _ :: _ =>
                  "?" +:+ URL.join_with "&"
                            (List.map (fun kv =>
                                         URL.encode_component (fst kv) +:+ "="
                                         +:+ URL.encode_component (String_of (snd kv)))
                                      entries)
              end).
Proof.
  intros Hbase Hpath. unfold FetchHttpClient.buildUrl.
  destruct (URL_new_rooted b path _ Hbase Hpath) as (segs & -> & Hjoin).
  rewrite searchParams_append_all.
  destruct entries as [ | e entries].
  - by rewrite toString_parts, Hjoin.
  - simpl URL.searchParams. simpl URL.url. cbv zeta.
    rewrite app_nil_l. simpl List.map at 1.
    rewrite serialize_not_empty.
    simpl URL.scheme. simpl URL.host. simpl URL.port. simpl URL.segments.
    simpl URL.fragment.
    rewrite toString_parts, Hjoin.
    unfold URL.serialize_urlencoded. rewrite List.map_map. reflexivity.
Qed.

Lemma buildUrl_appends_the_query_witness :
  let this := MsGineClient.httpClient test_client in
  let b := {| URL.scheme := "https"; URL.host := "api.msgine.net"; URL.port := None;
              URL.segments := ["api"; "v1"]; URL.query := None; URL.fragment := None |} in
  URL.parse_absolute (URL.preprocess (FetchHttpClient.baseUrl this)) = Some b
  /\ FetchHttpClient.buildUrl this "/messages"
       (Some [("page", QNumber {| integer := 2; is_safe := eq_refl |});
              ("q", QString "a b&c"); ("all", QBoolean true)])
     = Some "https://api.msgine.net/messages?page=2&q=a+b%26c&all=true".
Proof.
  intros this b.
  assert (Hbase : URL.parse_absolute (URL.preprocess (FetchHttpClient.baseUrl this))
                  = Some b) by (vm_compute; reflexivity).
  split; [exact Hbase | ].
  rewrite (buildUrl_appends_the_query this b "/messages" _ Hbase eq_refl).
  vm_compute. reflexivity.
Defined.

Lemma encode_char_form (c : ascii) :
  URL.all_chars form_char
    (if Ascii.eqb c " " then "+" else URL.percent_encode URL.urlencoded_set c) = true.
Proof.
  destruct c as [b0 b1 b2 b3 b4 b5 b6 b7].
  destruct b0, b1, b2, b3, b4, b5, b6, b7; vm_compute; reflexivity.
Qed.

Lemma encode_component_form (s : string) :
  URL.all_chars form_char (URL.encode_component s) = true.
Proof.
  induction s as [ | c s IH]; [reflexivity | ].
  simpl. by rewrite all_chars_append, encode_char_form, IH.
Qed.

Lemma join_with_all_chars p sep (parts : list string) : forall acc,
  URL.all_chars p sep = true ->
  Forall (fun part => URL.all_chars p part = true) parts ->
  URL.all_chars p acc = true ->
  URL.all_chars p (fold_left (fun acc q => acc +:+ sep +:+ q) parts acc) = true.
Proof.
  induction parts as [ | part parts IH]; intros acc Hsep Hparts Hacc; simpl; [done | ].
  inversion Hparts as [ | ? ? Hpart Hrest]; subst.
  apply IH; [done | done | ].
  by rewrite !all_chars_append, Hacc, Hsep, Hpart.
Qed.

(** X22.  An encoded name or value consists of ASCII letters, digits
    and [*-._%+] only, so it never contains [&], [=], [#], [?] or a
    space; a serialized query adds [&] and [=] as separators and nothing
    else. *)
Theorem serialized_query_alphabet (pairs : list (string * string)) :
  (forall s, URL.all_chars form_char (URL.encode_component s) = true)
  /\ URL.all_chars (fun c => form_char c || Ascii.eqb c "&" || Ascii.eqb c "=")
       (URL.serialize_urlencoded pairs) = true.
Proof.
  split; [exact encode_component_form | ].
  assert (Hwider : forall s,
    URL.all_chars (fun c => form_char c || Ascii.eqb c "&" || Ascii.eqb c "=")
      (URL.encode_component s) = true).
  { intros s. eapply all_chars_impl; [ | apply encode_component_form].
    intros c ->. reflexivity. }
  unfold URL.serialize_urlencoded, URL.join_with.
  destruct pairs as [ | pair pairs]; [reflexivity | ].
  simpl List.map.
  apply join_with_all_chars.
  - reflexivity.
  - apply List.Forall_forall. intros part Hin.
    apply in_map_iff in Hin as (nv & <- & _).
    by rewrite !all_chars_append, !Hwider.
  - by rewrite !all_chars_append, !Hwider.
Qed.
